(** * Football prediction dashboard: filters, presets, categories, accuracy

    A shallow embedding of the decision logic of the two browser
    applications of the repository:

    - the prediction dashboard ([src/unnamed/part_000], with its earlier
      copy [src/for markos only/app.js] and [charts.js]): [FilterManager],
      [FilterPresetManager], [DataManager], and what the application
      shows of them ([updateMatchDisplays], [populateDivisionFilter], the
      order and the classes of the prediction cards);
    - the statistical analysis page ([src/unnamed/part_001]):
      [checkIsForecastCorrect], [checkIsGoalsCorrect], [checkIsBothCorrect],
      [calcAccuracy], [getBestLeague], the two type filters and
      [getAccuracyByCountry].

    The part of JavaScript each function relies on is written out in
    module [JS]: completions (normal or thrown), string search and split,
    plain objects with their own properties in creation order and the names
    they inherit from [Object.prototype], JSON values, the stable
    [Array.prototype.sort], and binary64 numbers with [Math.round]. *)

From Stdlib Require Import ZArith QArith Bool List String Ascii Lia.
From Stdlib Require Import Sorting.Permutation Sorting.Sorted.
From Stdlib Require Import Structures.OrdersEx.
From Stdlib Require Import Floats.PrimFloat Floats.SpecFloat Floats.FloatOps.
From Stdlib Require Import Floats.FloatAxioms.
From Stdlib Require Import Numbers.Cyclic.Int63.Uint63 Numbers.DecimalString.
Import ListNotations.

(* ------------------------------------------------------------------ *)
(** * The host language *)
(* ------------------------------------------------------------------ *)

Module JS.

(** ** Completions *)

(** A call either returns a value or throws; the thrown value is kept as
    its message. *)
Inductive Completion (A : Type) : Type :=
| Normal (a : A)
| Throw (e : string).
Arguments Normal {A} a.
Arguments Throw {A} e.

Definition bind {A B} (c : Completion A) (k : A -> Completion B) : Completion B :=
  match c with
  | Normal a => k a
  | Throw e => Throw e
  end.

(** [try { c } catch (e) { h e }] *)
Definition try_catch {A} (c : Completion A) (h : string -> Completion A) : Completion A :=
  match c with
  | Normal a => Normal a
  | Throw e => h e
  end.

(** [Array.prototype.filter] with a callback that may throw: the first
    throw aborts the whole call. *)
Fixpoint filterM {A} (f : A -> Completion bool) (l : list A) : Completion (list A) :=
  match l with
  | [] => Normal []
  | x :: l' =>
      bind (f x) (fun keep =>
      bind (filterM f l') (fun rest =>
      Normal (if keep then x :: rest else rest)))
  end.

(** ** Strings *)

(** A string is falsy exactly when it is empty. *)
Definition nonEmpty (s : string) : bool := negb (String.eqb s EmptyString).

(** A property that may be missing ([undefined]) or [null] is [None];
    [!x] holds for those and for the empty string. *)
Definition falsy (x : option string) : bool :=
  match x with
  | None => true
  | Some s => negb (nonEmpty s)
  end.

(** [s.includes(t)] *)
Fixpoint includes (s t : string) : bool :=
  prefix t s ||
  match s with
  | EmptyString => false
  | String _ s' => includes s' t
  end.

(** [s.split(sep)] for a non-empty separator (every call site passes a
    literal one). [skip] counts the characters of a separator that was just
    matched and is still to be dropped. *)
Fixpoint split_go (sep s : string) (skip : nat) (cur : string) : list string :=
  match s with
  | EmptyString => [cur]
  | String c s' =>
      match skip with
      | S k => split_go sep s' k cur
      | O =>
          if prefix sep s
          then cur :: split_go sep s' (String.length sep - 1) EmptyString
          else split_go sep s' 0 (cur ++ String c EmptyString)
      end
  end.

Definition split (s sep : string) : list string := split_go sep s 0 EmptyString.

(** ** The order of strings

    A string stands for the bytes of its UTF-8 encoding: equality,
    [includes] and [split] on the bytes are those on the text. The order
    that [<] and the default [sort] put on strings is the order of their
    UTF-16 code units, which is not the order of the bytes: a character
    outside the basic plane is written with two surrogates, which come
    before the code units from U+E000 on. The order is computed on the
    code units the bytes encode. *)

Definition continuation (b : N) : bool := ((128 <=? b) && (b <? 192))%N.

(** The code points of a text. A JavaScript string is always written as
    well-formed UTF-8; on other bytes the reading is lenient, a byte that
    starts no sequence standing for itself. *)
Fixpoint codePoints (s : string) : list N :=
  match s with
  | EmptyString => []
  | String c0 s0 =>
      let b0 := N_of_ascii c0 in
      let single := b0 :: codePoints s0 in
      if (b0 <? 192)%N then single
      else
        match s0 with
        | EmptyString => single
        | String c1 s1 =>
            let b1 := N_of_ascii c1 in
            if negb (continuation b1) then single
            else if (b0 <? 224)%N
            then ((b0 - 192) * 64 + (b1 - 128))%N :: codePoints s1
            else
              match s1 with
              | EmptyString => single
              | String c2 s2 =>
                  let b2 := N_of_ascii c2 in
                  if negb (continuation b2) then single
                  else if (b0 <? 240)%N
                  then ((b0 - 224) * 4096 + (b1 - 128) * 64 + (b2 - 128))%N
                       :: codePoints s2
                  else
                    match s2 with
                    | EmptyString => single
                    | String c3 s3 =>
                        let b3 := N_of_ascii c3 in
                        if negb (continuation b3) || negb (b0 <? 248)%N then single
                        else ((b0 - 240) * 262144 + (b1 - 128) * 4096
                              + (b2 - 128) * 64 + (b3 - 128))%N
                             :: codePoints s3
                    end
              end
        end
  end.

(** The UTF-16 code units of a code point: itself, or a pair of
    surrogates from U+10000 on. *)
Definition utf16 (cp : N) : list N :=
  if (cp <? 65536)%N then [cp]
  else [(55296 + (cp - 65536) / 1024)%N; (56320 + (cp - 65536) mod 1024)%N].

Definition codeUnits (s : string) : list N := flat_map utf16 (codePoints s).

(** [s[i]]: the text of one code unit, written as a code point is (a
    surrogate on its own included). *)
Definition unitText (u : N) : string :=
  if (u <? 128)%N then String (ascii_of_N u) EmptyString
  else if (u <? 2048)%N
  then String (ascii_of_N (192 + u / 64))
         (String (ascii_of_N (128 + u mod 64)) EmptyString)
  else String (ascii_of_N (224 + u / 4096))
         (String (ascii_of_N (128 + (u / 64) mod 64))
            (String (ascii_of_N (128 + u mod 64)) EmptyString)).

(** Code unit by code unit, a proper prefix coming first. *)
Fixpoint compareUnits (a b : list N) : comparison :=
  match a, b with
  | [], [] => Eq
  | [], _ :: _ => Lt
  | _ :: _, [] => Gt
  | x :: a', y :: b' =>
      match (x ?= y)%N with
      | Eq => compareUnits a' b'
      | c => c
      end
  end.

(** The comparator the default [sort] stands for, on strings. *)
Definition compareCodeUnits (a b : string) : Z :=
  match compareUnits (codeUnits a) (codeUnits b) with
  | Lt => -1
  | Eq => 0
  | Gt => 1
  end.

(** ** Numbers that are only added and compared

    A goal count is an integer, and the thresholds it is compared with are
    halves: all are exact in binary64, as are their sums, so [+], [<], [>]
    and [===] on them are the rational ones. [None] is [NaN]: every
    comparison with it is false. *)
Definition number := option Q.

Definition num (q : Q) : number := Some q.

Definition numAdd (x y : number) : number :=
  match x, y with
  | Some a, Some b => Some (a + b)%Q
  | _, _ => None
  end.

Definition numGt (x y : number) : bool :=
  match x, y with
  | Some a, Some b => negb (Qle_bool a b)
  | _, _ => false
  end.

Definition numLt (x y : number) : bool := numGt y x.

Definition numEq (x y : number) : bool :=
  match x, y with
  | Some a, Some b => Qeq_bool a b
  | _, _ => false
  end.

(** ** Binary64 numbers that are divided and rounded *)

Definition ofZ (z : Z) : float :=
  match z with
  | Z0 => 0%float
  | Zpos _ => of_uint63 (Uint63.of_Z z)
  | Zneg p => PrimFloat.opp (of_uint63 (Uint63.of_Z (Zpos p)))
  end.

(** The length of an array, or a counter: exact below 2^53. *)
Definition ofNat (n : nat) : float := ofZ (Z.of_nat n).

(** [Math.round(x)]: the integer nearest to [x], a tie going to the larger
    one, that is floor(x + 1/2) computed exactly. A finite [x] is
    [±m * 2^e]; when [e >= 0] it is an integer already. ([-0], which
    [Math.round] returns for [-0.5 <= x < 0], is written [0] here.) *)
Definition Math_round (x : float) : float :=
  match Prim2SF x with
  | S754_finite s m e =>
      if (0 <=? e)%Z then x
      else
        let n := if s then Zneg m else Zpos m in
        ofZ ((2 * n + 2 ^ (- e)) / 2 ^ (1 - e))%Z
  | _ => x
  end.

(** ** JSON values *)

#[warnings="-register-all"]
Inductive JSON : Type :=
| JNull
| JBool (b : bool)
| JNum (z : Z)
| JStr (s : string)
| JArr (l : list JSON)
| JObj (props : list (string * JSON)).

(** [ToBoolean] *)
Definition truthy (j : JSON) : bool :=
  match j with
  | JNull => false
  | JBool b => b
  | JNum z => negb (z =? 0)%Z
  | JStr s => nonEmpty s
  | JArr _ | JObj _ => true
  end.

(** ** Plain objects

    An object created by [{}] or an object literal is the list of its own
    properties, in creation order, on top of [Object.prototype]. *)

Definition ObjectPrototypeKeys : list string :=
  ["constructor"; "__defineGetter__"; "__defineSetter__"; "hasOwnProperty";
   "__lookupGetter__"; "__lookupSetter__"; "isPrototypeOf";
   "propertyIsEnumerable"; "toString"; "valueOf"; "__proto__";
   "toLocaleString"]%string.

Definition inherited (k : string) : bool :=
  existsb (String.eqb k) ObjectPrototypeKeys.

Section Props.
Context {V : Type}.

Definition props : Type := list (string * V).

Fixpoint getOwn (o : props) (k : string) : option V :=
  match o with
  | [] => None
  | (k', v) :: o' => if String.eqb k k' then Some v else getOwn o' k
  end.

(** The names of the own properties, in creation order. *)
Definition ownKeys (o : props) : list string := map fst o.

Definition hasOwn (o : props) (k : string) : bool :=
  match getOwn o k with
  | Some _ => true
  | None => false
  end.

Fixpoint replace (o : props) (k : string) (v : V) : props :=
  match o with
  | [] => []
  | (k', v') :: o' =>
      if String.eqb k k' then (k', v) :: o' else (k', v') :: replace o' k v
  end.

(** What [o[k]] reads: an own property, else a member of
    [Object.prototype] (always truthy: a function, or [Object.prototype]
    itself for [__proto__]), else [undefined]. *)
Inductive Read : Type :=
| Own (v : V)
| Inherited (k : string)
| Undefined.

Definition get (o : props) (k : string) : Read :=
  match getOwn o k with
  | Some v => Own v
  | None => if inherited k then Inherited k else Undefined
  end.

(** [o[k] = v]: an own property is overwritten in place and a new one is
    appended, except that [__proto__] reaches the setter inherited from
    [Object.prototype], which creates no own property (it replaces the
    prototype of [o]; the replaced prototype is not followed here, see
    [FilterPresetManager.getAll]). *)
Definition set (o : props) (k : string) (v : V) : props :=
  if hasOwn o k then replace o k v
  else if String.eqb k "__proto__" then o
  else o ++ [(k, v)].

(** [delete o[k]] *)
Definition delete (o : props) (k : string) : props :=
  filter (fun kv => negb (String.eqb k (fst kv))) o.

(** [Object.assign(target, source)]: every own property of [source] is
    written to [target] with [set]. *)
Definition assign (target source : props) : props :=
  fold_left (fun o kv => set o (fst kv) (snd kv)) source target.

(** The order of [Object.keys] and [Object.entries]: the keys that are
    array indices first, ascending, then the others in creation order. *)
Definition digit (c : ascii) : option N :=
  let n := N_of_ascii c in
  if ((48 <=? n) && (n <=? 57))%N then Some (n - 48)%N else None.

Fixpoint digits (s : string) (acc : N) : option N :=
  match s with
  | EmptyString => Some acc
  | String c s' =>
      match digit c with
      | Some d => digits s' (10 * acc + d)%N
      | None => None
      end
  end.

Definition arrayIndex (k : string) : option N :=
  match k with
  | EmptyString => None
  | String c rest =>
      if Ascii.eqb c "0"%char && nonEmpty rest then None
      else match digits k 0 with
           | Some n => if (n <? 2 ^ 32 - 1)%N then Some n else None
           | None => None
           end
  end.

Fixpoint insertIndexed (n : N) (kv : string * V) (l : list (N * (string * V)))
  : list (N * (string * V)) :=
  match l with
  | [] => [(n, kv)]
  | (n', kv') :: l' =>
      if (n <=? n')%N then (n, kv) :: l
      else (n', kv') :: insertIndexed n kv l'
  end.

Fixpoint indexed (o : props) : list (N * (string * V)) :=
  match o with
  | [] => []
  | kv :: o' =>
      match arrayIndex (fst kv) with
      | Some n => insertIndexed n kv (indexed o')
      | None => indexed o'
      end
  end.

Definition named (o : props) : props :=
  filter (fun kv => match arrayIndex (fst kv) with
                    | Some _ => false
                    | None => true
                    end) o.

Definition entries (o : props) : props := map snd (indexed o) ++ named o.

Definition keys (o : props) : list string := map fst (entries o).
End Props.
Arguments props V : clear implicits.
Arguments Read V : clear implicits.

(** ** Arrays *)

(** [a.sort(cmp)]: stable, [cmp x y <= 0] keeps [x] before [y]. *)
Section Sort.
Context {A : Type} (cmp : A -> A -> Z).

Fixpoint insert (x : A) (l : list A) : list A :=
  match l with
  | [] => [x]
  | y :: l' => if (cmp x y <=? 0)%Z then x :: l else y :: insert x l'
  end.

Definition sort (l : list A) : list A := fold_right insert [] l.
End Sort.

End JS.

(* ------------------------------------------------------------------ *)
(** * The statistical analysis page ([src/unnamed/part_001]) *)
(* ------------------------------------------------------------------ *)

Module Analysis.
Import JS.

(** A score field ([home_score], [away_score]) as the code observes it:
    compared with [null] and with [''], and read with [parseFloat]. A
    recorded score is a goal count (the number, or its decimal text);
    [ScoreOther] stands for any other value ([undefined], a text that is not
    a number), on which [parseFloat] gives [NaN]. *)
Inductive Score : Type :=
| ScoreNull
| ScoreEmpty
| ScoreGoals (n : Z)
| ScoreOther.

Record Match : Type := {
  country : string;
  result_suggestion : option string;
  goals_suggestion : option string;
  home_score : Score;
  away_score : Score
}.

Definition parseFloat (s : Score) : number :=
  match s with
  | ScoreGoals n => num (inject_Z n)
  | _ => None
  end.

(** [x !== null && x !== ''] *)
Definition recorded (s : Score) : bool :=
  match s with
  | ScoreNull | ScoreEmpty => false
  | _ => true
  end.

Definition isMatchCompleted (m : Match) : bool :=
  recorded (home_score m) && recorded (away_score m).

(** The text of a suggestion that is known not to be falsy. *)
Definition text (x : option string) : string :=
  match x with
  | Some s => s
  | None => EmptyString
  end.

(** [x === ''] *)
Definition isEmptyString (x : option string) : bool :=
  match x with
  | Some s => String.eqb s EmptyString
  | None => false
  end.

(** The result of a check is [Some true], [Some false] or [None] for
    [undefined]. *)
Definition checkIsForecastCorrect (m : Match) : option bool :=
  if falsy (result_suggestion m) || isEmptyString (result_suggestion m)
     || negb (isMatchCompleted m)
  then None
  else
    let s := text (result_suggestion m) in
    let home := parseFloat (home_score m) in
    let away := parseFloat (away_score m) in
    if includes s "1" && numGt home away then Some true
    else if includes s "X" && numEq home away then Some true
    else if includes s "2" && numLt home away then Some true
    else Some false.

Definition checkIsGoalsCorrect (m : Match) : option bool :=
  if falsy (goals_suggestion m) || isEmptyString (goals_suggestion m)
     || negb (isMatchCompleted m)
  then None
  else
    let s := text (goals_suggestion m) in
    let home := parseFloat (home_score m) in
    let away := parseFloat (away_score m) in
    let totalGoals := numAdd home away in
    if includes s "Over 2.5" && numGt totalGoals (num 2.5) then Some true
    else if includes s "Over 1.5" && numGt totalGoals (num 1.5) then Some true
    else if includes s "Under 3.5" && numLt totalGoals (num 3.5) then Some true
    else if includes s "BTTS Yes" && numGt home (num 0) && numGt away (num 0)
    then Some true
    else if includes s "BTTS No" && (numEq home (num 0) || numEq away (num 0))
    then Some true
    else Some false.

Definition checkIsBothCorrect (m : Match) : option bool :=
  let forecast := checkIsForecastCorrect m in
  let goal := checkIsGoalsCorrect m in
  match forecast, goal with
  | Some f, Some g => Some (f && g)
  | _, _ => None
  end.

(** [calcAccuracy(matches, checkFn)]: the quotient and the product are
    binary64 operations. *)
Definition calcAccuracy {A} (matches : list A) (checkFn : A -> option bool) : float :=
  let valid := filter (fun v => match v with Some _ => true | None => false end)
                      (map checkFn matches) in
  let correct := List.length (filter (fun v => match v with
                                               | Some b => b
                                               | None => false
                                               end) valid) in
  if (0 <? List.length valid)%nat
  then Math_round ((ofNat correct / ofNat (List.length valid)) * 100)%float
  else 0%float.

(** The counters kept for one country. *)
Record Stat : Type := { correct : nat; total : nat }.

(** [stats[c].total++], and [stats[c].correct++] when the combined check
    is true; nothing when the check is undefined. *)
Definition count (stats : props Stat) (c : string) (check : option bool) : props Stat :=
  match check, getOwn stats c with
  | Some ok, Some s =>
      replace stats c {| correct := if ok then S (correct s) else correct s;
                         total := S (total s) |}
  | _, _ => stats
  end.

(** One turn of the [forEach] of [getBestLeague]. When [stats[c]] reads a
    member of [Object.prototype] (the country is one of its names), the
    test [!stats[c]] fails, nothing is created, and the increments land on
    that member: [stats] keeps its own properties. *)
Definition tally (stats : props Stat) (m : Match) : props Stat :=
  let c := country m in
  match get stats c with
  | Undefined =>
      count (set stats c {| correct := 0; total := 0 |}) c (checkIsBothCorrect m)
  | Own _ => count stats c (checkIsBothCorrect m)
  | Inherited _ => stats
  end.

(** [total ? correct / total : 0]. The quotients are only compared with
    each other: two distinct quotients of counts below 2^26 differ by more
    than 2^-52, so binary64 orders them as the rationals do. *)
Definition ratio (s : Stat) : Q :=
  match total s with
  | O => 0%Q
  | S _ => (Z.of_nat (correct s) # Pos.of_nat (total s))%Q
  end.

Record Best : Type := { league : string; acc : Q }.

Definition better (best : Best) (e : string * Stat) : Best :=
  let acc' := ratio (snd e) in
  if negb (Qle_bool acc' (acc best))
  then {| league := fst e; acc := acc' |}
  else best.

(** The [reduce] of [getBestLeague], from any starting value. *)
Definition pick (best : Best) (E : props Stat) : Best := fold_left better E best.

(** The [stats] object once the [forEach] is over. *)
Definition collect (matches : list Match) : props Stat := fold_left tally matches [].

Definition getBestLeague (matches : list Match) : string :=
  let stats := collect matches in
  league (pick {| league := EmptyString; acc := 0%Q |} (entries stats)).

(** ** What the specification says of these functions *)

(** The goal buckets a suggestion can name, with their labels. *)
Inductive Bucket : Type := Over25 | Over15 | Under35 | BTTSYes | BTTSNo.

Definition label (b : Bucket) : string :=
  match b with
  | Over25 => "Over 2.5"
  | Over15 => "Over 1.5"
  | Under35 => "Under 3.5"
  | BTTSYes => "BTTS Yes"
  | BTTSNo => "BTTS No"
  end.

(** The numeric predicate of a bucket on the final score: the total is
    over or under the bound; both sides scored, or one of them did not. *)
Definition holds (b : Bucket) (home away : Z) : Prop :=
  match b with
  | Over25 => (2.5 < inject_Z (home + away))%Q
  | Over15 => (1.5 < inject_Z (home + away))%Q
  | Under35 => (inject_Z (home + away) < 3.5)%Q
  | BTTSYes => (0 < home /\ 0 < away)%Z
  | BTTSNo => home = 0%Z \/ away = 0%Z
  end.


(** The specification's percentage: round(100 * correct / count), a half
    going up, and 0 when nothing was counted. *)
Definition roundedPercentage (correct count : nat) : Z :=
  match count with
  | O => 0
  | S _ => (2 * 100 * Z.of_nat correct + Z.of_nat count) / (2 * Z.of_nat count)
  end%Z.

(** The evaluations [calcAccuracy] counts: the defined ones, and among
    them the true ones. *)
Definition defined {A} (checkFn : A -> option bool) (matches : list A) : nat :=
  List.length (filter (fun m => match checkFn m with
                                | Some _ => true
                                | None => false
                                end) matches).

Definition hits {A} (checkFn : A -> option bool) (matches : list A) : nat :=
  List.length (filter (fun m => match checkFn m with
                                | Some b => b
                                | None => false
                                end) matches).

End Analysis.

(* ------------------------------------------------------------------ *)
(** * The charts of the dashboard ([src/for markos only/charts.js]) *)
(* ------------------------------------------------------------------ *)

Module ChartsManager.
Import JS.

(** [calculateAccuracy(correct, total)] *)
Definition calculateAccuracy (correct total : float) : float :=
  if (0 <? total)%float
  then Math_round ((correct / total) * 100)%float
  else 0%float.

End ChartsManager.

(* ------------------------------------------------------------------ *)
(** * The prediction dashboard ([src/unnamed/part_000]) *)
(* ------------------------------------------------------------------ *)

Module Dashboard.
Import JS.
Local Open Scope string_scope.

(** ** Data *)

(** One model's prediction: the probabilities [1], [X], [2] and the
    expected goals [H], [A]. The filters never compute with them; only
    the predicate expressions of the search box read them, and the
    prediction cards rank the three probabilities. *)
Record Prediction : Type := { _1 : Q; X : Q; _2 : Q; H : Q; A : Q }.

(** [match['model-predictions']]: model name to prediction. *)
Definition Models : Type := props Prediction.

(** A final-score field ([FTHG], [FTAG]) as the code observes it, which
    is compared with [null] and nothing else: [null] until the match is
    played, a goal count afterwards; [FTAbsent] is the field of a record
    that has no such key, which reads [undefined]. *)
Inductive FullTime : Type :=
| FTNull
| FTAbsent
| FTGoals (n : Z).

(** [match['match-info']]. [Date] is the number [categorizeMatches]
    compares with a time value and subtracts when sorting. *)
Record MatchInfo : Type := {
  MatchId : string;
  Div : string;
  Home : string;
  Away : string;
  Date : Z;
  FTHG : FullTime;
  FTAG : FullTime
}.

Record Match : Type := {
  id : string;
  match_info : MatchInfo;
  model_predictions : Models
}.

(** [FilterManager.currentFilters] *)
Record FilterCriteria : Type := {
  search : string;
  division : string;
  dateFrom : string;
  dateTo : string
}.

(** The time value of a [Date] object; [None] is an invalid date, whose
    time value is [NaN]. *)
Definition TimeValue : Type := option Z.

(** [a < b] on two [Date] objects compares their time values. *)
Definition before (a b : TimeValue) : bool :=
  match a, b with
  | Some x, Some y => (x <? y)%Z
  | _, _ => false
  end.

(** [a[i]] on an array of strings, [undefined] outside it. *)
Definition item (a : list string) (i : Z) : option string :=
  if (i <? 0)%Z then None else nth_error a (Z.to_nat i).

(** ** Utils and FilterManager *)

Section Host.
(** What the browser supplies. *)

(** [window.location.search] *)
Variable location_search : string.

(** [String.prototype.toLowerCase] *)
Variable toLowerCase : string -> string.

(** [eval(query)] inside [applyAdvancedFilters(models, query)]: the
    completion of running the text with [models] in scope. The only use of
    its value is as the result of a [filter] callback, which reads it
    through [ToBoolean]; that boolean is what [Normal] carries. *)
Variable eval : string -> Models -> Completion bool.

(** [new Date(y, m - 1, d)] where [y], [m], [d] are elements of a split
    string ([None] when the element is [undefined]): the time value of
    local midnight of that day, or [None] when a piece is not a number. *)
Variable newDate : option string -> option string -> option string -> TimeValue.

(** [Utils.parseDate(matchId)]. In the [odds] layout the second piece of
    the identifier is split again; when there is no second piece, calling
    [split] on [undefined] throws. *)
Definition parseDate (matchId : string) : Completion TimeValue :=
  if includes location_search "odds" then
    match item (split matchId "-") 1 with
    | Some piece =>
        let date := split piece "/" in
        Normal (newDate (item date 2) (item date 1) (item date 0))
    | None => Throw "TypeError"
    end
  else
    let dateSplit := split matchId "-" in
    let n := Z.of_nat (List.length dateSplit) in
    Normal (newDate (item dateSplit (n - 5)) (item dateSplit (n - 4))
                    (item dateSplit (n - 3))).

Definition applyAdvancedFilters (models : Models) (query : string) : Completion bool :=
  eval query models.

(** [search.split("q:")[1]]; the array has a second element whenever the
    search includes the marker. *)
Definition advancedQuery (search : string) : string :=
  match item (split search "q:") 1 with
  | Some q => q
  | None => EmptyString
  end.

(** What the predicate mode lets through: the matches on which the
    expression is truthy, and those on which it throws. *)
Definition predicateKeeps (f : FilterCriteria) (m : Match) : bool :=
  match eval (advancedQuery (search f)) (model_predictions m) with
  | Normal b => b
  | Throw _ => true
  end.

(** The callback of [applyFilters], statement by statement. *)
Definition passesSearch (f : FilterCriteria) (matchInfo : MatchInfo) : bool :=
  let searchTerm := toLowerCase (search f) in
  let searchText :=
    toLowerCase (Home matchInfo ++ " " ++ Away matchInfo ++ " " ++ Div matchInfo) in
  includes searchText searchTerm.

Definition passesDivision (f : FilterCriteria) (matchInfo : MatchInfo) : bool :=
  negb (negb (division f =? "all") && negb (Div matchInfo =? division f)).

Definition boundDate (bound : string) : TimeValue :=
  let date := split bound "-" in
  newDate (item date 0) (item date 1) (item date 2).

Definition passesDateFrom (f : FilterCriteria) (matchInfo : MatchInfo) : Completion bool :=
  if nonEmpty (dateFrom f) then
    bind (parseDate (MatchId matchInfo)) (fun matchDate =>
    Normal (negb (before matchDate (boundDate (dateFrom f)))))
  else Normal true.

Definition passesDateTo (f : FilterCriteria) (matchInfo : MatchInfo) : Completion bool :=
  if nonEmpty (dateTo f) then
    bind (parseDate (MatchId matchInfo)) (fun matchDate =>
    Normal (negb (before (boundDate (dateTo f)) matchDate)))
  else Normal true.

(** The statements after the search filter: division, then the two date
    bounds. *)
Definition passesRest (f : FilterCriteria) (matchInfo : MatchInfo) : Completion bool :=
  if negb (passesDivision f matchInfo) then Normal false
  else
    bind (passesDateFrom f matchInfo) (fun ok =>
    if negb ok then Normal false
    else passesDateTo f matchInfo).

Definition keeps (f : FilterCriteria) (m : Match) : Completion bool :=
  let matchInfo := match_info m in
  if nonEmpty (search f) then
    if includes (search f) "q:" then
      try_catch
        (applyAdvancedFilters (model_predictions m) (advancedQuery (search f)))
        (fun _ => Normal true)
    else if negb (passesSearch f matchInfo) then Normal false
    else passesRest f matchInfo
  else passesRest f matchInfo.

(** [FilterManager.applyFilters(matches)] with [this.currentFilters = f]. *)
Definition applyFilters (f : FilterCriteria) (matches : list Match)
  : Completion (list Match) :=
  filterM (keeps f) matches.

(** *** The earlier copy ([src/for markos only/app.js])

    It has no predicate mode, and its [parseDate] tests
    [window.location.search.includes['odds']], a property of a function
    that does not exist: the test is always false. *)
Definition parseDate_markos (matchId : string) : TimeValue :=
  let dateSplit := split matchId "-" in
  let n := Z.of_nat (List.length dateSplit) in
  newDate (item dateSplit (n - 5)) (item dateSplit (n - 4)) (item dateSplit (n - 3)).

Definition keeps_markos (f : FilterCriteria) (m : Match) : bool :=
  let matchInfo := match_info m in
  if nonEmpty (search f) && negb (passesSearch f matchInfo) then false
  else if negb (passesDivision f matchInfo) then false
  else if nonEmpty (dateFrom f)
          && before (parseDate_markos (MatchId matchInfo)) (boundDate (dateFrom f))
  then false
  else if nonEmpty (dateTo f)
          && before (boundDate (dateTo f)) (parseDate_markos (MatchId matchInfo))
  then false
  else true.

Definition applyFilters_markos (f : FilterCriteria) (matches : list Match) : list Match :=
  filter (keeps_markos f) matches.

End Host.

(** ** DataManager *)

(** [x !== null] *)
Definition notNull (x : FullTime) : bool :=
  match x with
  | FTNull => false
  | _ => true
  end.

(** [match['match-info'].FTHG !== null && match['match-info'].FTAG !== null] *)
Definition hasResult (m : Match) : bool :=
  notNull (FTHG (match_info m)) && notNull (FTAG (match_info m)).


Record Categorized : Type := {
  upcoming : list Match;
  unresolved : list Match;
  resolved : list Match
}.

(** [DataManager.categorizeMatches(matches)], with [currentDate] the time
    value of today's midnight. *)
Definition categorizeMatches (currentDate : Z) (matches : list Match) : Categorized :=
  {| upcoming :=
       sort (fun a b => Date (match_info a) - Date (match_info b))%Z
         (filter (fun m =>
                    let matchDate := Date (match_info m) in
                    (currentDate <=? matchDate)%Z && negb (hasResult m)) matches);
     unresolved :=
       sort (fun a b => Date (match_info a) - Date (match_info b))%Z
         (filter (fun m =>
                    let matchDate := Date (match_info m) in
                    (matchDate <? currentDate)%Z && negb (hasResult m)) matches);
     resolved :=
       sort (fun a b => Date (match_info b) - Date (match_info a))%Z
         (filter (fun m => hasResult m) matches) |}.

End Dashboard.

(** ** FilterPresetManager *)

Module FilterPresetManager.
Import JS Dashboard.
Local Open Scope string_scope.

(** What [localStorage.getItem(STORAGE_KEY)] holds, read as [JSON.parse]
    reads it: nothing ([null]), a text it rejects, or a text it accepts
    with the value it yields. [JSON.stringify] of an object built from
    parsed values and strings writes a text that parses back to the same
    value, so a write stores [Parsed] of what was serialised. *)
Inductive Item : Type :=
| NoItem
| Unparsable
| Parsed (j : JSON).

(** The double quote inside a search text. *)
Definition dq : string := String (ascii_of_nat 34) EmptyString.

Definition preset (search : string) : JSON :=
  JObj [("search", JStr search); ("division", JStr "all");
        ("dateFrom", JStr EmptyString); ("dateTo", JStr EmptyString)].

Definition getDefaultPresets : props JSON :=
  [("A model expects dominant performance - From Goals",
    preset "q:Object.values(models).some(model=>(model.H > 2 && model.A < 1) || (model.A > 2 && model.H < 1))");
   ("A model expects dominant performance - From Win Prob",
    preset ("q:Object.values(models).some(model=>model[" ++ dq ++ "1" ++ dq
            ++ "] > 0.8 || model[" ++ dq ++ "2" ++ dq ++ "] > 0.8)"));
   ("A model expects dominant performance - From Win Prob (any %)",
    preset "q:
                    const allSameMax = obj => {
                    const keys = ['1', 'X', '2'];
                    return Object.values(obj).every(v => keys.reduce((a,b) => v[a] > v[b] ? a : b) === keys.reduce((a,b) => Object.values(obj)[0][a] > Object.values(obj)[0][b] ? a : b));
                };
                allSameMax(models)");
   ("All models aggree on BTTS (Y)",
    preset "q:Object.values(models).every(model=>model.H > 1.3 && model.A > 1.3)");
   ("Is this Football or Fusball?",
    preset "q:Object.values(models).every(model=>model.H + model.A > 3.5)");
   ("Goals in total agreement",
    preset "q:Object.values(models).every(model => Math.round(model.H) == Math.round(models[0].H) && Math.round(model.A) == Math.round(models[0].A))");
   ("High Draw Probability",
    preset "q:Object.values(models).some(model=>model.X > 0.7)");
   ("All models Win Probability in agreement",
    preset ("q: Object.values(models).every(model => model[" ++ dq ++ "1" ++ dq
            ++ "] > 0.6499) || Object.values(models).every(model => model[" ++ dq
            ++ "X" ++ dq
            ++ "] > 0.6499) || Object.values(models).every(model => model[" ++ dq
            ++ "2" ++ dq ++ "] > 0.6499)"))].

(** [{ ...filters }] *)
Definition copy (filters : FilterCriteria) : JSON :=
  JObj [("search", JStr (search filters)); ("division", JStr (division filters));
        ("dateFrom", JStr (dateFrom filters)); ("dateTo", JStr (dateTo filters))].

(** The key of the [n]-th element of an array or string. *)
Definition indexKey (n : nat) : string := NilZero.string_of_uint (Nat.to_uint n).

Fixpoint indexFrom {V} (n : nat) (l : list V) : props V :=
  match l with
  | [] => []
  | v :: l' => (indexKey n, v) :: indexFrom (S n) l'
  end.

(** The elements of a string: one for each code unit. *)
Definition chars (s : string) : list JSON :=
  map (fun u => JStr (unitText u)) (codeUnits s).

(** The own enumerable properties [Object.assign] copies from a source. *)
Definition ownEnumerable (j : JSON) : props JSON :=
  match j with
  | JObj p => entries p
  | JArr l => indexFrom 0 l
  | JStr s => indexFrom 0 (chars s)
  | _ => []
  end.

(** [loadFromStorage()]: [JSON.parse(null)] is [null], and a falsy value
    is replaced by [{}]. *)
Definition loadFromStorage (st : Item) : Completion JSON :=
  match st with
  | NoItem => Normal (JObj [])
  | Unparsable => Throw "SyntaxError"
  | Parsed values => Normal (if truthy values then values else JObj [])
  end.

(** [getAll()]. A stored [__proto__] entry would make [Object.assign]
    replace the prototype of the merged object; [save] and [delete] never
    write one ([save_writes_no_proto], [delete_writes_no_proto]), and the
    merged object is read here as standing on [Object.prototype]. *)
Definition getAll (st : Item) : props JSON :=
  match bind (loadFromStorage st) (fun values =>
              Normal (assign getDefaultPresets (ownEnumerable values))) with
  | Normal presets => presets
  | Throw _ => []
  end.

(** [localStorage.setItem(STORAGE_KEY, JSON.stringify(presets))]: the own
    properties, in the order of [Object.keys]. *)
Definition store (presets : props JSON) : Item := Parsed (JObj (entries presets)).

Definition save (name : string) (filters : FilterCriteria) (st : Item) : Item :=
  let presets := getAll st in
  let presets := set presets name (copy filters) in
  store presets.

(** What [load] returns: a stored value, a member of [Object.prototype],
    or [null]. *)
Inductive Loaded : Type :=
| Value (j : JSON)
| Builtin (k : string)
| Null.

(** [load(name)]: [presets[name] || null] *)
Definition load (name : string) (st : Item) : Loaded :=
  let presets := getAll st in
  match get presets name with
  | Own v => if truthy v then Value v else Null
  | Inherited k => Builtin k
  | Undefined => Null
  end.

Definition delete (name : string) (st : Item) : Item :=
  let presets := getAll st in
  let presets := JS.delete presets name in
  store presets.

(** [getNames()]: [Object.keys(getAll()).sort()], the default order of
    [sort] being that of the code units. *)
Definition getNames (st : Item) : list string :=
  sort compareCodeUnits (keys (getAll st)).

End FilterPresetManager.

(* ------------------------------------------------------------------ *)
(** * Sample data *)
(* ------------------------------------------------------------------ *)

Module Samples.
Import JS Dashboard.
Local Open Scope string_scope.

(** A host on which statements are run: it evaluates three texts, the two
    boolean literals and one comparison that reads the [poisson] model and
    throws, as [eval] does, when the match has none. *)
Definition evalSample (query : string) (models : Models) : Completion bool :=
  if query =? "true" then Normal true
  else if query =? "false" then Normal false
  else if query =? "models.poisson.X > 0.5" then
    match getOwn models "poisson" with
    | Some p => Normal (negb (Qle_bool (X p) 0.5))
    | None => Throw "TypeError"
    end
  else Throw "SyntaxError".

Definition noDate (y m d : option string) : TimeValue := None.

(** Two names outside ASCII, as UTF-8: U+1F600 and U+FF5E. *)
Definition grinning : string :=
  String "240" (String "159" (String "152" (String "128" EmptyString))).

Definition fullwidthTilde : string :=
  String "239" (String "189" (String "158" EmptyString)).

Definition lowerChar (c : ascii) : ascii :=
  let n := nat_of_ascii c in
  if ((65 <=? n) && (n <=? 90))%nat then ascii_of_nat (n + 32) else c.

Fixpoint lowerAscii (s : string) : string :=
  match s with
  | EmptyString => EmptyString
  | String c s' => String (lowerChar c) (lowerAscii s')
  end.

Definition fixture (home away div : string) (models : Models) : Match :=
  {| id := home ++ "-" ++ away;
     match_info := {| MatchId := "E0-2025-08-16-" ++ home ++ "-" ++ away;
                      Div := div; Home := home; Away := away;
                      Date := 1755302400000; FTHG := FTNull; FTAG := FTNull |};
     model_predictions := models |}.

Definition poisson (x : Q) : Models :=
  [("poisson", {| _1 := 0.3; X := x; _2 := 0.1; H := 1.2; A := 0.8 |})].

(** Matches of the analysis page: a forecast that came true, one that did
    not, one still to be played; and two with both suggestions, the first
    wrong on both counts, the second right. *)
Definition won : Analysis.Match :=
  {| Analysis.country := "Austria";
     Analysis.result_suggestion := Some "1";
     Analysis.goals_suggestion := None;
     Analysis.home_score := Analysis.ScoreGoals 1;
     Analysis.away_score := Analysis.ScoreGoals 0 |}.

Definition lost : Analysis.Match :=
  {| Analysis.country := "Austria";
     Analysis.result_suggestion := Some "2";
     Analysis.goals_suggestion := None;
     Analysis.home_score := Analysis.ScoreGoals 1;
     Analysis.away_score := Analysis.ScoreGoals 0 |}.

Definition pending : Analysis.Match :=
  {| Analysis.country := "Austria";
     Analysis.result_suggestion := Some "1";
     Analysis.goals_suggestion := None;
     Analysis.home_score := Analysis.ScoreNull;
     Analysis.away_score := Analysis.ScoreNull |}.

Definition stale : Analysis.Match :=
  {| Analysis.country := "Austria";
     Analysis.result_suggestion := Some "1";
     Analysis.goals_suggestion := Some "Over 2.5";
     Analysis.home_score := Analysis.ScoreGoals 0;
     Analysis.away_score := Analysis.ScoreGoals 0 |}.

Definition fine : Analysis.Match :=
  {| Analysis.country := "Belgium";
     Analysis.result_suggestion := Some "1";
     Analysis.goals_suggestion := Some "Over 2.5";
     Analysis.home_score := Analysis.ScoreGoals 3;
     Analysis.away_score := Analysis.ScoreGoals 0 |}.

End Samples.

(* ------------------------------------------------------------------ *)
(** * The dashboard's display ([src/unnamed/part_000]) *)
(* ------------------------------------------------------------------ *)

Module Display.
Import JS Dashboard.
Local Open Scope string_scope.

(** [currentFilters] as the constructor of [FilterManager] and
    [clearFilters] set it. *)
Definition clearedFilters : FilterCriteria :=
  {| search := EmptyString; division := "all";
     dateFrom := EmptyString; dateTo := EmptyString |}.

(** [DOMUtils.getModelPriority(model, modelPrio)]: [for (let prio in
    modelPrio)] visits the indices in ascending order. *)
Fixpoint getModelPriority_from (prio : nat) (model : string) (modelPrio : list string) : Z :=
  match modelPrio with
  | [] => 99
  | name :: rest =>
      if includes model name
      then Z.of_nat prio * 2 + (if includes model "combined" then 1 else 0)
      else getModelPriority_from (S prio) model rest
  end.

Definition getModelPriority (model : string) (modelPrio : list string) : Z :=
  getModelPriority_from 0 model modelPrio.

(** The order in which [createMatchCard] shows the predictions of a
    match. *)
Definition shownPredictions (matchPredictions : Models) : Models :=
  sort (fun a b => getModelPriority (fst a) ["rain"; "xgb"; "net"]
                   - getModelPriority (fst b) ["rain"; "xgb"; "net"])%Z
       (entries matchPredictions).

(** [[...new Set(a)]]: the elements of [a], each once, in the order of
    their first occurrence. *)
Fixpoint unique_from (seen a : list string) : list string :=
  match a with
  | [] => []
  | x :: a' =>
      if existsb (String.eqb x) seen then unique_from seen a'
      else x :: unique_from (x :: seen) a'
  end.

Definition unique (a : list string) : list string := unique_from [] a.

(** The options [populateDivisionFilter] adds after [All Divisions]. *)
Definition divisions (allMatches : list Match) : list string :=
  unique (map (fun m => Div (match_info m)) allMatches).

(** The counts [updateMatchDisplays] hands to [DOMUtils.updateTabCounts]. *)
Definition tabCounts (c : Categorized) : nat * nat * nat :=
  (List.length (upcoming c), List.length (unresolved c), List.length (resolved c)).

(** What a call of [updateMatchDisplays] does: the counts it reports, if
    it gets that far, and its completion. *)
Record Displayed : Type := {
  reported : option (nat * nat * nat);
  outcome : Completion unit
}.

Section Host.
Variable location_search : string.
Variable toLowerCase : string -> string.
Variable eval : string -> Models -> Completion bool.
Variable newDate : option string -> option string -> option string -> TimeValue.

(** The page, as [updateMatchDisplays] finds it: the tab that is shown,
    and whether the container of that tab and its note for an empty list
    exist ([getElementById] gives [null] for one that does not). *)
Variable currentTab : string.
Variable container : bool.
Variable noMatchesEl : bool.

(** [renderMatches] when it is handed a member of [Object.prototype] for
    an array, the current tab being one of its names: what the [length]
    and the [map] of that member make of the call. *)
Variable renderInherited : string -> Completion unit.

(** The first statements of [updateMatchDisplays]: the buckets, filtered
    in the order [upcoming], [unresolved], [resolved]. *)
Definition filteredCategories (f : FilterCriteria) (currentDate : Z)
  (allMatches : list Match) : Completion Categorized :=
  let categorized := categorizeMatches currentDate allMatches in
  bind (applyFilters location_search toLowerCase eval newDate f (upcoming categorized))
    (fun u =>
  bind (applyFilters location_search toLowerCase eval newDate f (unresolved categorized))
    (fun n =>
  bind (applyFilters location_search toLowerCase eval newDate f (resolved categorized))
    (fun r =>
  Normal {| upcoming := u; unresolved := n; resolved := r |}))).

(** [Utils.formatDate(matchId)], for its completion: [toLocaleDateString]
    returns on every date, an invalid one included. *)
Definition formatDate (matchId : string) : Completion unit :=
  bind (parseDate location_search newDate matchId) (fun _ => Normal tt).

(** [DOMUtils.createMatchCard(match)], for its completion: the date is
    formatted first, and nothing after it throws on a match of these
    records. *)
Definition createMatchCard (m : Match) : Completion unit :=
  formatDate (MatchId (match_info m)).

(** [matches.map(match => DOMUtils.createMatchCard(match))]: the first
    throw ends the call. *)
Fixpoint createMatchCards (matches : list Match) : Completion unit :=
  match matches with
  | [] => Normal tt
  | m :: rest => bind (createMatchCard m) (fun _ => createMatchCards rest)
  end.

(** [renderMatches(matches)]: nothing is done without the container; with
    it, both branches go through the note, which throws when there is
    none. *)
Definition renderMatches (matches : list Match) : Completion unit :=
  if negb container then Normal tt
  else if negb noMatchesEl then Throw "TypeError"
  else createMatchCards matches.

(** [categorized[this.state.currentTab]] *)
Definition currentMatches (categorized : Categorized) : Read (list Match) :=
  if currentTab =? "upcoming" then Own (upcoming categorized)
  else if currentTab =? "unresolved" then Own (unresolved categorized)
  else if currentTab =? "resolved" then Own (resolved categorized)
  else if inherited currentTab then Inherited currentTab
  else Undefined.

(** [updateMatchDisplays()]: the counts it hands to
    [DOMUtils.updateTabCounts], when the filters let it get there, and how
    the call ends. After the counts the current tab is rendered
    ([categorized[currentTab] || []]), and the tooltips are set up, which
    installs handlers and does not throw. *)
Definition updateMatchDisplays (f : FilterCriteria) (currentDate : Z)
  (allMatches : list Match) : Displayed :=
  match filteredCategories f currentDate allMatches with
  | Throw e => {| reported := None; outcome := Throw e |}
  | Normal categorized =>
      {| reported := Some (tabCounts categorized);
         outcome := match currentMatches categorized with
                    | Own matches => renderMatches matches
                    | Undefined => renderMatches []
                    | Inherited k => renderInherited k
                    end |}
  end.

(** The criteria of the text mode, read together: what a match must pass
    when the search holds no marker and the identifiers are in the plain
    layout. *)
Definition textKeeps (f : FilterCriteria) (m : Match) : bool :=
  let matchInfo := match_info m in
  let matchDate := parseDate_markos newDate (MatchId matchInfo) in
  (negb (nonEmpty (search f)) || passesSearch toLowerCase f matchInfo)
  && passesDivision f matchInfo
  && (negb (nonEmpty (dateFrom f))
      || negb (before matchDate (boundDate newDate (dateFrom f))))
  && (negb (nonEmpty (dateTo f))
      || negb (before (boundDate newDate (dateTo f)) matchDate)).
End Host.

(** The model families [createMatchCard] ranks the predictions by. *)
Definition family : list string := ["rain"; "xgb"; "net"].

(** [document.getElementById(id)?.value || fallback]: the element may be
    missing, and an empty value is falsy. *)
Definition valueOr (value : option string) (fallback : string) : string :=
  match value with
  | Some v => if nonEmpty v then v else fallback
  | None => fallback
  end.

(** [FilterManager.updateFiltersFromForm()], from the values of the four
    inputs. *)
Definition updateFiltersFromForm (searchInput divisionFilter dateFromInput dateToInput
                                  : option string) : FilterCriteria :=
  {| search := valueOr searchInput EmptyString;
     division := valueOr divisionFilter "all";
     dateFrom := valueOr dateFromInput EmptyString;
     dateTo := valueOr dateToInput EmptyString |}.

(** The sign of [b.value - a.value], which is all [sort] reads of it. *)
Definition descending (a b : Q) : Z :=
  match Qcompare b a with
  | Lt => -1
  | Eq => 0
  | Gt => 1
  end.

Inductive ProbabilityClass : Type := Highest | Medium | Lowest.

(** The class names [createPredictionsHTML] gives the probabilities of
    [1], [X] and [2], in that order. *)
Definition probabilityClasses (predictions : Prediction) : list ProbabilityClass :=
  let probabilities := [_1 predictions; X predictions; _2 predictions] in
  let sortedProbs := sort descending probabilities in
  map (fun value =>
         if Qeq_bool value (nth 0 sortedProbs 0%Q) then Highest
         else if Qeq_bool value (nth 2 sortedProbs 0%Q) then Lowest
         else Medium)
      probabilities.

(** What a class name says of a probability among the three. *)
Definition ranked (predictions : Prediction) (value : Q) (c : ProbabilityClass) : Prop :=
  let probabilities := [_1 predictions; X predictions; _2 predictions] in
  let greatest := forall w, In w probabilities -> (w <= value)%Q in
  let least := forall w, In w probabilities -> (value <= w)%Q in
  match c with
  | Highest => greatest
  | Lowest => least /\ ~ greatest
  | Medium => ~ least /\ ~ greatest
  end.

(** ** Identifiers and dates in the plain layout *)

(** A piece of an identifier or of a date: it holds no dash. *)
Definition dashFree (s : string) : Prop := includes s "-" = false.

(** The identifier of a match in the plain layout: any prefix, then the
    date, then two more pieces. *)
Definition plainId (p y m d a b : string) : string :=
  p ++ "-" ++ y ++ "-" ++ m ++ "-" ++ d ++ "-" ++ a ++ "-" ++ b.

End Display.

(* ------------------------------------------------------------------ *)
(** * The preset store, read from outside *)
(* ------------------------------------------------------------------ *)

Module PresetStore.
Import JS Dashboard FilterPresetManager.
Local Open Scope string_scope.

(** A store that parses and holds no [__proto__] entry: an empty one, or
    one left by [save] or [delete]. *)
Definition plain (st : Item) : Prop :=
  match st with
  | NoItem => True
  | Unparsable => False
  | Parsed j => ~ In "__proto__" (ownKeys (ownEnumerable j))
  end.

(** [a] comes no later than [b] in the order of the code units. *)
Definition notAfter (a b : string) : Prop :=
  compareUnits (codeUnits a) (codeUnits b) <> Gt.

End PresetStore.

(* ------------------------------------------------------------------ *)
(** * The analysis page's filters and charts ([src/unnamed/part_001]) *)
(* ------------------------------------------------------------------ *)

Module AnalysisPage.
Import JS Analysis.
Local Open Scope string_scope.

(** [filterByForecastType(match, type)] *)
Definition filterByForecastType (m : Match) (type : string) : bool :=
  if negb (nonEmpty type) then true
  else
    let hasForecast := negb (falsy (result_suggestion m)) in
    let hasGoals := negb (falsy (goals_suggestion m)) in
    if type =? "forecast" then hasForecast
    else if type =? "goals" then hasGoals
    else if type =? "combo" then hasForecast && hasGoals
    else if type =? "only-forecast" then hasForecast && negb hasGoals
    else if type =? "only-goals" then hasGoals && negb hasForecast
    else true.

(** [!check(m)] *)
Definition isNot (check : Match -> option bool) (m : Match) : option bool :=
  match check m with
  | Some b => Some (negb b)
  | None => Some true
  end.

(** The table [checks] of [filterByResultType]. *)
Definition checks : props (Match -> option bool) :=
  [("correct-forecasts", checkIsForecastCorrect);
   ("incorrect-forecasts", isNot checkIsForecastCorrect);
   ("correct-goals", checkIsGoalsCorrect);
   ("incorrect-goals", isNot checkIsGoalsCorrect);
   ("correct-combos", checkIsBothCorrect);
   ("incorrect-combos", isNot checkIsBothCorrect)].

Section Builtins.
(** [checks[type](match) ?? true], read as a boolean, when [type] names a
    member of [Object.prototype]: what calling that member gives, or the
    throw when it is not a function. *)
Variable callInherited : string -> Match -> Completion bool.

(** [filterByResultType(match, type)]: [checks[type]?.(match) ?? true] *)
Definition filterByResultType (m : Match) (type : string) : Completion bool :=
  if negb (nonEmpty type) || negb (isMatchCompleted m) then Normal true
  else
    match get checks type with
    | Own check =>
        Normal (match check m with
                | Some b => b
                | None => true
                end)
    | Inherited k => callInherited k m
    | Undefined => Normal true
    end.
End Builtins.

(** [stats[c].total++], after [stats[c].correct++] when the check is
    truthy. *)
Definition bump (stats : props Stat) (c : string) (ok : bool) : props Stat :=
  match getOwn stats c with
  | Some s => replace stats c {| correct := if ok then S (correct s) else correct s;
                                total := S (total s) |}
  | None => stats
  end.

(** [if (x)] on the result of a check *)
Definition isTrue (x : option bool) : bool :=
  match x with
  | Some b => b
  | None => false
  end.

(** One turn of the [forEach] of [getAccuracyByCountry]; a country that
    names a member of [Object.prototype] leaves [stats] as it is, as in
    [tally]. *)
Definition tallyCountry (checkFn : Match -> option bool)
  (stats : props Stat) (m : Match) : props Stat :=
  let c := country m in
  match get stats c with
  | Undefined => bump (set stats c {| correct := 0; total := 0 |}) c (isTrue (checkFn m))
  | Own _ => bump stats c (isTrue (checkFn m))
  | Inherited _ => stats
  end.

(** [stats[c].total ? Math.round((stats[c].correct / stats[c].total) * 100) : 0] *)
Definition percentage (s : Stat) : float :=
  if (0 <? total s)%nat
  then Math_round ((ofNat (correct s) / ofNat (total s)) * 100)%float
  else 0%float.

Record Bars : Type := { totals : list nat; labels : list string; data : list float }.

Definition statOf (stats : props Stat) (c : string) : Stat :=
  match getOwn stats c with
  | Some s => s
  | None => {| correct := 0; total := 0 |}
  end.

Definition countryStats (data : list Match) (checkFn : Match -> option bool) : props Stat :=
  let completed :=
    filter (fun m => isMatchCompleted m
                     && match checkFn m with Some _ => true | None => false end) data in
  fold_left (tallyCountry checkFn) completed [].

(** [getAccuracyByCountry(data, checkFn)] *)
Definition getAccuracyByCountry (data : list Match) (checkFn : Match -> option bool) : Bars :=
  let stats := countryStats data checkFn in
  let labels := keys stats in
  {| totals := map (fun country => total (statOf stats country)) labels;
     labels := labels;
     data := map (fun c => percentage (statOf stats c)) labels |}.

(** The matches [getAccuracyByCountry] counts. *)
Definition counted (checkFn : Match -> option bool) (m : Match) : bool :=
  isMatchCompleted m
  && match checkFn m with Some _ => true | None => false end
  && negb (inherited (country m)).

(** ** What the checks and the counters are to say *)

(** The outcome a result suggestion names came about: [1] a home win,
    [X] a draw, [2] an away win, on the score [h]-[a]. *)
Definition outcomeHolds (s : string) (h a : Z) : Prop :=
  (includes s "1" = true /\ (a < h)%Z)
  \/ (includes s "X" = true /\ h = a)
  \/ (includes s "2" = true /\ (h < a)%Z).

(** How many of the matches of country [c] satisfy [p]. *)
Definition countOf (p : Match -> bool) (c : string) (ms : list Match) : nat :=
  List.length (filter (fun m => String.eqb (country m) c && p m) ms).

Definition isDefined (x : option bool) : bool :=
  match x with
  | Some _ => true
  | None => false
  end.

(** The counters [getAccuracyByCountry] is to hold for country [c] once
    it has gone through [ms], all of them with a defined check. *)
Definition tallied (checkFn : Match -> option bool) (ms : list Match) (c : string)
  : option Stat :=
  if inherited c then None
  else match countOf (fun _ => true) c ms with
       | O => None
       | t => Some {| correct := countOf (fun m => isTrue (checkFn m)) c ms;
                      total := t |}
       end.

(** The counters [getBestLeague] is to hold for country [c] once it has
    gone through [ms]. *)
Definition collected (ms : list Match) (c : string) : option Stat :=
  if inherited c then None
  else match countOf (fun _ => true) c ms with
       | O => None
       | _ => Some {| correct := countOf (fun m => isTrue (checkIsBothCorrect m)) c ms;
                      total := countOf (fun m => isDefined (checkIsBothCorrect m)) c ms |}
       end.

(** The matches of country [c] on which both suggestions are right, and
    those on which the combined check is defined. *)
Definition hitsOf (c : string) (ms : list Match) : nat :=
  countOf (fun m => isTrue (checkIsBothCorrect m)) c ms.
Definition definedOf (c : string) (ms : list Match) : nat :=
  countOf (fun m => isDefined (checkIsBothCorrect m)) c ms.

(** The sum of the [total] counters of a [stats] object. *)
Definition sumTotals (o : props Stat) : nat :=
  fold_right (fun e n => total (snd e) + n)%nat 0%nat o.

(** A counter that counted something, and no more hits than tries. *)
Definition sound (s : Stat) : Prop := (correct s <= total s /\ 1 <= total s)%nat.

(** What every turn of [getAccuracyByCountry] keeps of [stats] after [n]
    counted matches. *)
Definition invariant (stats : props Stat) (n : nat) : Prop :=
  NoDup (ownKeys stats)
  /\ Forall (fun e => sound (snd e)) stats
  /\ Forall (fun e => inherited (fst e) = false) stats
  /\ sumTotals stats = n.

End AnalysisPage.

(* ------------------------------------------------------------------ *)
(** * Percentages in binary64, against the exact rounding *)
(* ------------------------------------------------------------------ *)

Module Rounding.
Import JS Analysis.

(** [Math.round((correct / count) * 100)] on two counters. *)
Definition percent (correct count : nat) : float :=
  Math_round ((ofNat correct / ofNat count) * 100)%float.

(** 100 * correct / count lies half way between two integers. *)
Definition tie (correct count : nat) : bool :=
  ((2 * 100 * Z.of_nat correct + Z.of_nat count) mod (2 * Z.of_nat count) =? 0)%Z.

(** [percent] is the exact rounding, or one below it on a tie. *)
Definition agrees (correct count : nat) : bool :=
  let e := roundedPercentage correct count in
  Leibniz.eqb (percent correct count) (ofZ e)
  || (tie correct count && Leibniz.eqb (percent correct count) (ofZ (e - 1))).

Definition agreeUpTo (n : nat) : bool :=
  forallb (fun count => forallb (fun correct => agrees correct count) (seq 0 (S count)))
          (seq 1 n).

End Rounding.

(* ------------------------------------------------------------------ *)
(** * Facts about the host language *)
(* ------------------------------------------------------------------ *)

Module JSFacts.
Import JS.

(** ** Sorting and filtering *)

Lemma insert_perm {A} (cmp : A -> A -> Z) (x : A) (l : list A) :
  Permutation (insert cmp x l) (x :: l).
Proof.
  induction l as [|y l IH]; cbn; [reflexivity|].
  destruct (cmp x y <=? 0)%Z; [reflexivity|].
  rewrite IH. apply perm_swap.
Qed.

Lemma sort_perm {A} (cmp : A -> A -> Z) (l : list A) :
  Permutation (sort cmp l) l.
Proof.
  induction l as [|x l IH]; cbn; [reflexivity|].
  fold (sort cmp l). rewrite insert_perm. now constructor.
Qed.

Lemma sort_In {A} (cmp : A -> A -> Z) (l : list A) (x : A) :
  In x (sort cmp l) <-> In x l.
Proof.
  split; apply Permutation_in; [| symmetry]; apply sort_perm.
Qed.

(** Three tests of which exactly one holds of every element split a list. *)
Lemma filter3_perm {A} (p q r : A -> bool) (l : list A) :
  (forall x, In x l ->
     (p x = true /\ q x = false /\ r x = false)
     \/ (p x = false /\ q x = true /\ r x = false)
     \/ (p x = false /\ q x = false /\ r x = true)) ->
  Permutation (filter p l ++ filter q l ++ filter r l) l.
Proof.
  induction l as [|x l IH]; intro Hx; cbn; [reflexivity|].
  assert (IH' := IH (fun y I => Hx y (or_intror I))).
  destruct (Hx x (or_introl eq_refl))
    as [(-> & -> & ->) | [(-> & -> & ->) | (-> & -> & ->)]]; cbn.
  - now constructor.
  - rewrite <- Permutation_middle. now constructor.
  - rewrite app_assoc, <- Permutation_middle, <- app_assoc. now constructor.
Qed.

Lemma length_filter_map {A B} (f : A -> B) (p : B -> bool) (l : list A) :
  List.length (filter p (map f l)) = List.length (filter (fun x => p (f x)) l).
Proof.
  induction l as [|x l IH]; cbn; trivial.
  destruct (p (f x)); cbn; congruence.
Qed.

Lemma filter_filter {A} (p q : A -> bool) (l : list A) :
  filter p (filter q l) = filter (fun x => q x && p x) l.
Proof.
  induction l as [|x l IH]; cbn; trivial.
  destruct (q x); cbn; [destruct (p x)|]; congruence.
Qed.

(** A [filter] whose callback returned every time is the pure filter. *)
Lemma filterM_filter {A} (f : A -> Completion bool) (l out : list A) :
  filterM f l = Normal out ->
  out = filter (fun x => match f x with Normal b => b | Throw _ => false end) l.
Proof.
  revert out. induction l as [|x l IH]; cbn; intros out E.
  - now injection E as <-.
  - destruct (f x) as [b|e]; cbn in E; [|discriminate].
    destruct (filterM f l) as [rest|e]; cbn in E; [|discriminate].
    injection E as <-. rewrite (IH rest eq_refl). now destruct b.
Qed.

Lemma filterM_total {A} (f : A -> Completion bool) (g : A -> bool) (l : list A) :
  (forall x, In x l -> f x = Normal (g x)) -> filterM f l = Normal (filter g l).
Proof.
  induction l as [|x l IH]; cbn; intro E; [reflexivity|].
  rewrite (E x (or_introl eq_refl)). cbn.
  rewrite (IH (fun y I => E y (or_intror I))). cbn. now destruct (g x).
Qed.

(** ** Strings *)

Lemma prefix_includes (s t : string) : prefix t s = true -> includes s t = true.
Proof. intro P. destruct s; cbn [includes]; now rewrite P. Qed.

Lemma marker_nonEmpty (s : string) :
  includes s "q:" = true -> nonEmpty s = true.
Proof. now destruct s. Qed.

(** ** Comparisons *)

Lemma Qle_bool_false (a b : Q) : Qle_bool a b = false <-> (b < a)%Q.
Proof.
  split; intro E.
  - apply Qnot_le_lt. intro L. apply Qle_bool_iff in L. congruence.
  - destruct (Qle_bool a b) eqn:L; trivial.
    apply Qle_bool_iff in L. exfalso. exact (Qlt_not_le _ _ E L).
Qed.

End JSFacts.

(* ------------------------------------------------------------------ *)
(** * Facts about plain objects *)
(* ------------------------------------------------------------------ *)

Module ObjectFacts.
Import JS.

Section Props.
Context {V : Type}.
Implicit Types (o : props V) (k : string) (v : V).

Lemma getOwn_In o k v : getOwn o k = Some v -> In (k, v) o.
Proof.
  induction o as [|[k' v'] o IH]; cbn; [discriminate|].
  destruct (String.eqb_spec k k') as [->|N].
  - intros [= ->]. now left.
  - intro E. right. now apply IH.
Qed.

Lemma getOwn_None o k : getOwn o k = None <-> ~ In k (ownKeys o).
Proof.
  induction o as [|[k' v'] o IH]; cbn; [tauto|].
  destruct (String.eqb_spec k k') as [->|N].
  - split; [discriminate | intro H; exfalso; apply H; now left].
  - rewrite IH. split; intro H; [intros [E|I]; [congruence | tauto] | tauto].
Qed.

Lemma In_getOwn o k v : NoDup (ownKeys o) -> In (k, v) o -> getOwn o k = Some v.
Proof.
  induction o as [|[k' v'] o IH]; cbn; [tauto|].
  intros D [E|I]; inversion D as [|? ? N D']; subst.
  - injection E as -> ->. now rewrite String.eqb_refl.
  - destruct (String.eqb_spec k k') as [->|_]; [|now apply IH].
    exfalso. apply N. change k' with (fst (k', v)). now apply in_map.
Qed.

Lemma ownKeys_replace o k v : ownKeys (replace o k v) = ownKeys o.
Proof.
  unfold ownKeys. induction o as [|[k' v'] o IH]; cbn; trivial.
  destruct (String.eqb k k'); cbn; [reflexivity | now rewrite IH].
Qed.

Lemma getOwn_replace_same o k v :
  getOwn o k <> None -> getOwn (replace o k v) k = Some v.
Proof.
  induction o as [|[k' v'] o IH]; cbn; [congruence|].
  destruct (String.eqb k k') eqn:E; cbn; rewrite E; auto.
Qed.

Lemma getOwn_replace_other o k v k' :
  k' <> k -> getOwn (replace o k v) k' = getOwn o k'.
Proof.
  intro N. induction o as [|[k1 v1] o IH]; cbn; trivial.
  destruct (String.eqb_spec k k1) as [->|N1]; cbn.
  - destruct (String.eqb_spec k' k1); [contradiction | reflexivity].
  - now rewrite IH.
Qed.

Lemma getOwn_app o o' k :
  getOwn (o ++ o') k = match getOwn o k with Some v => Some v | None => getOwn o' k end.
Proof.
  induction o as [|[k1 v1] o IH]; cbn; trivial.
  now destruct (String.eqb k k1).
Qed.

Lemma getOwn_set_same o k v :
  k <> "__proto__"%string -> getOwn (set o k v) k = Some v.
Proof.
  intro N. unfold set, hasOwn.
  destruct (getOwn o k) eqn:E.
  - apply getOwn_replace_same. congruence.
  - apply String.eqb_neq in N. rewrite N, getOwn_app, E. cbn.
    now rewrite String.eqb_refl.
Qed.

Lemma getOwn_set_other o k v k' :
  k' <> k -> getOwn (set o k v) k' = getOwn o k'.
Proof.
  intro N. unfold set, hasOwn.
  destruct (getOwn o k) eqn:E.
  - now apply getOwn_replace_other.
  - destruct (String.eqb k "__proto__"%string); trivial.
    rewrite getOwn_app. cbn.
    destruct (String.eqb_spec k' k); [contradiction|].
    now destruct (getOwn o k').
Qed.

Lemma set_NoDup o k v : NoDup (ownKeys o) -> NoDup (ownKeys (set o k v)).
Proof.
  intro D. unfold set, hasOwn.
  destruct (getOwn o k) eqn:E.
  - now rewrite ownKeys_replace.
  - destruct (String.eqb k "__proto__"%string); trivial.
    unfold ownKeys. rewrite map_app. cbn.
    apply NoDup_app; repeat split; auto.
    + constructor; [tauto | constructor].
    + intros x I [<-|[]]. now apply getOwn_None in E.
Qed.

Lemma assign_NoDup (target source : props V) :
  NoDup (ownKeys target) -> NoDup (ownKeys (assign target source)).
Proof.
  unfold assign. revert target.
  induction source as [|[k v] s IH]; cbn; intros t D; trivial.
  apply IH. now apply set_NoDup.
Qed.

Lemma getOwn_assign_absent (target source : props V) k :
  getOwn target k = None -> ~ In k (ownKeys source) ->
  getOwn (assign target source) k = None.
Proof.
  unfold assign. revert target.
  induction source as [|[k1 v1] s IH]; cbn; intros t E N; trivial.
  apply IH; [| tauto].
  rewrite getOwn_set_other; [exact E | intros ->; tauto].
Qed.

Lemma getOwn_assign_written (target source : props V) k v :
  NoDup (ownKeys source) -> In (k, v) source -> k <> "__proto__"%string ->
  getOwn (assign target source) k = Some v.
Proof.
  unfold assign. revert target.
  induction source as [|[k1 v1] s IH]; cbn; intros t D I N; [tauto|].
  inversion D as [|? ? N1 D1]; subst.
  destruct I as [E|I].
  - injection E as -> ->.
    assert (G : getOwn (set t k v) k = Some v) by now apply getOwn_set_same.
    revert G. generalize (set t k v). clear - N1.
    induction s as [|[k2 v2] s IH]; cbn; intros t G; trivial.
    apply IH.
    + cbn in N1. tauto.
    + rewrite getOwn_set_other; [exact G | intros ->; cbn in N1; tauto].
  - now apply IH.
Qed.

(** A merged object has no own [__proto__] unless its target had one. *)
Lemma set_no_proto o k v :
  getOwn o "__proto__"%string = None -> getOwn (set o k v) "__proto__"%string = None.
Proof.
  intro E. destruct (String.eqb_spec k "__proto__"%string) as [->|N].
  - unfold set, hasOwn. now rewrite E.
  - rewrite getOwn_set_other; auto.
Qed.

Lemma assign_no_proto (target source : props V) :
  getOwn target "__proto__"%string = None ->
  getOwn (assign target source) "__proto__"%string = None.
Proof.
  unfold assign. revert target.
  induction source as [|[k v] s IH]; cbn; intros t E; trivial.
  apply IH. now apply set_no_proto.
Qed.

Lemma delete_absent o k : ~ In k (ownKeys (delete o k)).
Proof.
  unfold ownKeys, delete. rewrite in_map_iff.
  intros ([k' v'] & <- & I). apply filter_In in I as [_ I]. cbn in I.
  now rewrite String.eqb_refl in I.
Qed.

Lemma delete_incl o k k' : In k' (ownKeys (delete o k)) -> In k' (ownKeys o).
Proof.
  unfold ownKeys, delete. rewrite !in_map_iff.
  intros (kv & E & I). apply filter_In in I as [I _]. eauto.
Qed.

Lemma insertIndexed_perm n (kv : string * V) l :
  Permutation (insertIndexed n kv l) ((n, kv) :: l).
Proof.
  induction l as [|[n' kv'] l IH]; cbn; [reflexivity|].
  destruct (n <=? n')%N; [reflexivity|].
  rewrite IH. apply perm_swap.
Qed.

Lemma entries_perm o : Permutation (entries o) o.
Proof.
  unfold entries, named.
  induction o as [|kv o IH]; cbn; [reflexivity|].
  destruct (arrayIndex (fst kv)); cbn.
  - rewrite insertIndexed_perm. cbn. now constructor.
  - rewrite <- Permutation_middle. now constructor.
Qed.

Lemma entries_In o kv : In kv (entries o) <-> In kv o.
Proof.
  split; apply Permutation_in; [| symmetry]; apply entries_perm.
Qed.

Lemma entries_keys o k : In k (ownKeys (entries o)) <-> In k (ownKeys o).
Proof.
  unfold ownKeys.
  split; apply Permutation_in; apply Permutation_map;
    [| symmetry]; apply entries_perm.
Qed.

Lemma entries_NoDup o : NoDup (ownKeys o) -> NoDup (ownKeys (entries o)).
Proof.
  apply Permutation_NoDup. apply Permutation_map. symmetry. apply entries_perm.
Qed.

End Props.
End ObjectFacts.

(* ------------------------------------------------------------------ *)
(** * The filter engine *)
(* ------------------------------------------------------------------ *)

Module FilterFacts.
Import JS Dashboard Samples JSFacts.
Local Open Scope string_scope.

Section Host.
Variable location_search : string.
Variable toLowerCase : string -> string.
Variable eval : string -> Models -> Completion bool.
Variable newDate : option string -> option string -> option string -> TimeValue.

Let keeps := keeps location_search toLowerCase eval newDate.
Let applyFilters := applyFilters location_search toLowerCase eval newDate.

(** In predicate mode the callback returns at the search filter: its
    answer is that of the expression, and [true] when it throws. *)
Lemma keeps_predicate_mode f m :
  includes (search f) "q:" = true -> keeps f m = Normal (predicateKeeps eval f m).
Proof.
  intro I. unfold keeps, Dashboard.keeps, predicateKeeps, applyAdvancedFilters.
  rewrite (marker_nonEmpty _ I), I.
  now destruct (eval _ _).
Qed.

Lemma applyFilters_predicate_mode f matches :
  includes (search f) "q:" = true ->
  applyFilters f matches = Normal (filter (predicateKeeps eval f) matches).
Proof.
  intro I. apply filterM_total. intros m _. now apply keeps_predicate_mode.
Qed.

(** Whatever the criteria, a call that returns gives the matches its
    callback kept, in the order of the input. *)
Lemma applyFilters_stable f matches out :
  applyFilters f matches = Normal out ->
  out = filter (fun m => match keeps f m with Normal b => b | Throw _ => false end)
               matches.
Proof. apply filterM_filter. Qed.

(** Outside the predicate mode a match is kept exactly when it passes the
    search text, the division and both date bounds. *)
Lemma keeps_text_mode f m :
  includes (search f) "q:" = false ->
  keeps f m = Normal true <->
  (nonEmpty (search f) = true -> passesSearch toLowerCase f (match_info m) = true)
  /\ passesDivision f (match_info m) = true
  /\ passesDateFrom location_search newDate f (match_info m) = Normal true
  /\ passesDateTo location_search newDate f (match_info m) = Normal true.
Proof.
  intro I. unfold keeps, Dashboard.keeps, passesRest. rewrite I.
  destruct (nonEmpty (search f));
    [destruct (passesSearch toLowerCase f (match_info m)); cbn|];
    destruct (passesDivision f (match_info m)); cbn;
    destruct (passesDateFrom location_search newDate f (match_info m)) as [[|]|];
    cbn; intuition (try discriminate; try congruence).
Qed.

(** The earlier copy applies every criterion to every match. *)
Lemma keeps_markos_all f m :
  keeps_markos toLowerCase newDate f m = true <->
  (nonEmpty (search f) = true -> passesSearch toLowerCase f (match_info m) = true)
  /\ passesDivision f (match_info m) = true
  /\ (nonEmpty (dateFrom f) = true ->
      before (parseDate_markos newDate (MatchId (match_info m)))
             (boundDate newDate (dateFrom f)) = false)
  /\ (nonEmpty (dateTo f) = true ->
      before (boundDate newDate (dateTo f))
             (parseDate_markos newDate (MatchId (match_info m))) = false).
Proof.
  unfold keeps_markos.
  destruct (nonEmpty (search f)), (passesSearch toLowerCase f (match_info m)),
    (passesDivision f (match_info m)), (nonEmpty (dateFrom f)),
    (before (parseDate_markos newDate (MatchId (match_info m)))
            (boundDate newDate (dateFrom f))),
    (nonEmpty (dateTo f)),
    (before (boundDate newDate (dateTo f))
            (parseDate_markos newDate (MatchId (match_info m))));
    cbn; intuition (try discriminate).
Qed.

End Host.

(** C1, where the code departs from it: in predicate mode the callback
    returns the expression's answer before the division and date filters
    are reached. A match the expression lets through is returned even when
    it fails the division criterion, so the result is not the set of
    matches that satisfy all active criteria. *)
Theorem applyFilters_predicate_skips_division :
  forall location_search toLowerCase eval newDate f m,
  includes (search f) "q:" = true ->
  predicateKeeps eval f m = true ->
  passesDivision f (match_info m) = false ->
  applyFilters location_search toLowerCase eval newDate f [m] = Normal [m].
Proof.
  intros location_search toLowerCase eval newDate f m I K _.
  unfold applyFilters.
  rewrite (filterM_total _ (predicateKeeps eval f)).
  - cbn. now rewrite K.
  - intros x _. now apply keeps_predicate_mode.
Qed.

(** The search [q:true] with the division filter [E0], on a match of
    division [E1]. *)
Lemma applyFilters_predicate_skips_division_witness :
  let m := fixture "Burnley" "Hull" "E1" (poisson 0.3) in
  let f := {| search := "q:true"; division := "E0";
              dateFrom := EmptyString; dateTo := EmptyString |} in
  applyFilters EmptyString lowerAscii evalSample noDate f [m] = Normal [m]
  /\ passesDivision f (match_info m) = false.
Proof.
  intros m f. split; [| reflexivity].
  exact (applyFilters_predicate_skips_division EmptyString lowerAscii evalSample
           noDate f m eq_refl eq_refl eq_refl).
Defined.

(** C2: when the search starts with the marker [q:], a match on whose
    predictions the expression throws is kept, the call returns normally,
    and the matches before and after it are filtered as they are on their
    own. *)
Theorem applyFilters_fail_open :
  forall location_search toLowerCase eval newDate f m e pre post,
  prefix "q:" (search f) = true ->
  eval (advancedQuery (search f)) (model_predictions m) = Throw e ->
  exists pre' post',
    applyFilters location_search toLowerCase eval newDate f pre = Normal pre'
    /\ applyFilters location_search toLowerCase eval newDate f post = Normal post'
    /\ applyFilters location_search toLowerCase eval newDate f (pre ++ m :: post)%list
       = Normal (pre' ++ m :: post')%list.
Proof.
  intros location_search toLowerCase eval newDate f m e pre post P T.
  apply prefix_includes in P.
  exists (filter (predicateKeeps eval f) pre), (filter (predicateKeeps eval f) post).
  rewrite !applyFilters_predicate_mode by assumption.
  repeat split. rewrite filter_app. cbn [filter].
  unfold predicateKeeps at 2. now rewrite T.
Qed.

Lemma applyFilters_fail_open_witness :
  let f := {| search := "q:models.poisson.X > 0.5"; division := "all";
              dateFrom := EmptyString; dateTo := EmptyString |} in
  let likely := fixture "Arsenal" "Leeds" "E0" (poisson 0.6) in
  let unlikely := fixture "Everton" "Fulham" "E0" (poisson 0.2) in
  let bare := fixture "Bolton" "Derby" "E2" [] in
  exists pre' post',
    applyFilters EmptyString lowerAscii evalSample noDate f [unlikely; likely]
    = Normal pre'
    /\ applyFilters EmptyString lowerAscii evalSample noDate f [unlikely]
       = Normal post'
    /\ applyFilters EmptyString lowerAscii evalSample noDate f
         ([unlikely; likely] ++ bare :: [unlikely])%list
       = Normal (pre' ++ bare :: post')%list.
Proof.
  intros f likely unlikely bare.
  exact (applyFilters_fail_open EmptyString lowerAscii evalSample noDate f bare
           "TypeError" [unlikely; likely] [unlikely] eq_refl eq_refl).
Defined.

Example predicate_error_run :
  applyFilters EmptyString lowerAscii evalSample noDate
    {| search := "q:models.poisson.X > 0.5"; division := "all";
       dateFrom := EmptyString; dateTo := EmptyString |}
    [fixture "Everton" "Fulham" "E0" (poisson 0.2);
     fixture "Arsenal" "Leeds" "E0" (poisson 0.6);
     fixture "Bolton" "Derby" "E2" []]
  = Normal [fixture "Arsenal" "Leeds" "E0" (poisson 0.6);
            fixture "Bolton" "Derby" "E2" []].
Proof. reflexivity. Qed.

End FilterFacts.

(* ------------------------------------------------------------------ *)
(** * Presets *)
(* ------------------------------------------------------------------ *)

Module PresetFacts.
Import JS Dashboard FilterPresetManager JSFacts ObjectFacts.
Local Open Scope string_scope.

Lemma defaults_NoDup : NoDup (ownKeys getDefaultPresets).
Proof.
  cbn. repeat (constructor; [cbn; intuition discriminate|]). constructor.
Qed.

Lemma getAll_NoDup st : NoDup (ownKeys (getAll st)).
Proof.
  unfold getAll. destruct (loadFromStorage st); cbn.
  - apply assign_NoDup, defaults_NoDup.
  - constructor.
Qed.

Lemma getAll_no_proto st : getOwn (getAll st) "__proto__" = None.
Proof.
  unfold getAll. destruct (loadFromStorage st); cbn; trivial.
  now apply assign_no_proto.
Qed.

(** Reading back what was just written. *)
Lemma getAll_store presets :
  getAll (store presets) = assign getDefaultPresets (entries (entries presets)).
Proof. reflexivity. Qed.

(** [save] and [delete] write no [__proto__] entry. *)
Lemma save_writes_no_proto name filters st :
  exists written, save name filters st = Parsed (JObj written)
                  /\ ~ In "__proto__" (ownKeys written).
Proof.
  eexists. split; [reflexivity|].
  rewrite entries_keys. apply getOwn_None, set_no_proto, getAll_no_proto.
Qed.

Lemma delete_writes_no_proto name st :
  exists written, delete name st = Parsed (JObj written)
                  /\ ~ In "__proto__" (ownKeys written).
Proof.
  eexists. split; [reflexivity|].
  rewrite entries_keys. intro I. apply delete_incl in I.
  revert I. apply getOwn_None, getAll_no_proto.
Qed.

(** The round trip holds of every name but the one the prototype chain
    takes, whatever the store held before. *)
Lemma save_load name filters st :
  name <> "__proto__" -> load name (save name filters st) = Value (copy filters).
Proof.
  intro N. unfold load, save. rewrite getAll_store.
  unfold get.
  rewrite (getOwn_assign_written _ _ name (copy filters)); trivial.
  - apply entries_NoDup, entries_NoDup, set_NoDup, getAll_NoDup.
  - apply entries_In, entries_In, getOwn_In. now apply getOwn_set_same.
Qed.

(** C8, where the code departs from it: a preset saved under the name
    [__proto__] is not stored (the assignment reaches the prototype
    setter), and loading that name returns [Object.prototype], not the
    criteria that were saved. *)
Theorem save_load___proto__ : forall filters,
  load "__proto__" (save "__proto__" filters NoItem) = Builtin "__proto__"
  /\ load "__proto__" (save "__proto__" filters NoItem) <> Value (copy filters).
Proof.
  intro filters. split; [reflexivity | discriminate].
Qed.

(** C9 as stated fails on a built-in preset: after deleting
    [High Draw Probability] from an empty store, loading it still returns
    the built-in criteria and the name is still listed. *)
Lemma delete_default_counterexample :
  let st := delete "High Draw Probability" NoItem in
  load "High Draw Probability" st
  = Value (preset "q:Object.values(models).some(model=>model.X > 0.7)")
  /\ In "High Draw Probability" (getNames st).
Proof.
  split; [reflexivity|]. vm_compute. tauto.
Qed.

(** C9, amended: for every preset name that is not a built-in default,
    after deleting it the stored collection no longer holds it and the
    name is no longer listed; and a load by that name returns [null]
    provided the name is not one every object inherits. *)
Theorem delete_forgets : forall name st,
  ~ In name (ownKeys getDefaultPresets) ->
  (exists written, delete name st = Parsed (JObj written)
                   /\ ~ In name (ownKeys written))
  /\ ~ In name (getNames (delete name st))
  /\ (inherited name = false -> load name (delete name st) = Null).
Proof.
  intros name st D.
  assert (W : ~ In name (ownKeys (entries (JS.delete (getAll st) name)))).
  { rewrite entries_keys. apply delete_absent. }
  assert (G : getOwn (getAll (delete name st)) name = None).
  { unfold delete. rewrite getAll_store.
    apply getOwn_assign_absent; [now apply getOwn_None|].
    now rewrite entries_keys. }
  split; [|split].
  - eexists. split; [reflexivity | exact W].
  - unfold getNames. rewrite sort_In.
    unfold keys. fold (ownKeys (entries (getAll (delete name st)))).
    rewrite entries_keys. now apply getOwn_None.
  - intro I. unfold load, get. now rewrite G, I.
Qed.

Lemma delete_forgets_witness :
  let mine := {| search := "arsenal"; division := "E0";
                 dateFrom := EmptyString; dateTo := "2025-12-31" |} in
  let st := save "derbies" mine NoItem in
  (exists written, delete "derbies" st = Parsed (JObj written)
                   /\ ~ In "derbies" (ownKeys written))
  /\ ~ In "derbies" (getNames (delete "derbies" st))
  /\ (inherited "derbies" = false -> load "derbies" (delete "derbies" st) = Null).
Proof.
  intros mine st.
  apply (delete_forgets "derbies" st).
  cbn. intuition discriminate.
Defined.

End PresetFacts.

(* ------------------------------------------------------------------ *)
(** * The categorizer *)
(* ------------------------------------------------------------------ *)

Module CategorizerFacts.
Import JS Dashboard JSFacts.





End CategorizerFacts.

(* ------------------------------------------------------------------ *)
(** * The accuracy evaluator and the aggregator *)
(* ------------------------------------------------------------------ *)

Module AnalysisFacts.
Import JS Analysis Samples JSFacts.
Local Open Scope string_scope.

(** ** The goals check *)


Lemma checkIsGoalsCorrect_defined m s :
  isMatchCompleted m = true -> goals_suggestion m = Some s -> s <> EmptyString ->
  checkIsGoalsCorrect m <> None.
Proof.
  intros C E N. unfold checkIsGoalsCorrect. rewrite E, C. simpl.
  unfold nonEmpty. apply String.eqb_neq in N. rewrite N. simpl.
  repeat match goal with |- context [if ?c then _ else _] => destruct c end;
    discriminate.
Qed.

(** Splits on the first comparison of the goal, with its meaning. *)
Ltac decide_check :=
  match goal with
  | |- context [Qle_bool ?x ?y] =>
      let L := fresh "L" in
      destruct (Qle_bool x y) eqn:L;
      [apply Qle_bool_iff in L | apply Qle_bool_false in L]
  | |- context [Qeq_bool ?x ?y] =>
      let L := fresh "L" in
      destruct (Qeq_bool x y) eqn:L;
      [apply Qeq_bool_iff in L | apply Qeq_bool_neq in L]
  end.

Lemma isMatchCompleted_false m :
  isMatchCompleted m = false
  <-> home_score m = ScoreNull \/ home_score m = ScoreEmpty
      \/ away_score m = ScoreNull \/ away_score m = ScoreEmpty.
Proof.
  unfold isMatchCompleted.
  destruct (home_score m), (away_score m); cbn; split;
    try discriminate; try tauto;
    intros [X | [X | [X | X]]]; discriminate X.
Qed.




Example over25_three_goals :
  checkIsGoalsCorrect {| country := "Austria"; result_suggestion := None;
                         goals_suggestion := Some "Over 2.5";
                         home_score := ScoreGoals 2; away_score := ScoreGoals 1 |}
  = Some true.
Proof. reflexivity. Qed.

Example over25_two_goals :
  checkIsGoalsCorrect {| country := "Austria"; result_suggestion := None;
                         goals_suggestion := Some "Over 2.5";
                         home_score := ScoreGoals 1; away_score := ScoreGoals 1 |}
  = Some false.
Proof. reflexivity. Qed.

Example over25_no_result :
  checkIsGoalsCorrect {| country := "Austria"; result_suggestion := None;
                         goals_suggestion := Some "Over 2.5";
                         home_score := ScoreNull; away_score := ScoreNull |}
  = None.
Proof. reflexivity. Qed.

(** C10 as stated fails: a suggestion that is none of the five labels but
    contains one can be counted correct. [Over 2.5 goals] on a 2-1 match
    is. *)
Lemma checkIsGoalsCorrect_label_counterexample :
  let m := {| country := "Austria"; result_suggestion := None;
              goals_suggestion := Some "Over 2.5 goals";
              home_score := ScoreGoals 2; away_score := ScoreGoals 1 |} in
  isMatchCompleted m = true
  /\ (forall b, goals_suggestion m <> Some (label b))
  /\ checkIsGoalsCorrect m = Some true.
Proof.
  cbv zeta. repeat split. intros [] E; discriminate E.
Qed.

(** C10, amended: on a match whose score fields are neither [null] nor
    [''] and whose goals suggestion is not empty, the check is never
    undefined; it is false whenever the suggestion contains none of the
    five labels; and with final score [h]-[a] it is true exactly when the
    suggestion contains a label whose predicate holds of the score. *)
Theorem checkIsGoalsCorrect_unrecognised : forall m s,
  home_score m <> ScoreNull -> home_score m <> ScoreEmpty ->
  away_score m <> ScoreNull -> away_score m <> ScoreEmpty ->
  goals_suggestion m = Some s -> s <> EmptyString ->
  checkIsGoalsCorrect m <> None
  /\ ((forall b, includes s (label b) = false) -> checkIsGoalsCorrect m = Some false)
  /\ (forall h a,
        home_score m = ScoreGoals h -> away_score m = ScoreGoals a ->
        (checkIsGoalsCorrect m = Some true <->
         exists b, includes s (label b) = true /\ holds b h a)).
Proof.
  intros m s H1 H2 A1 A2 E N.
  assert (C : isMatchCompleted m = true).
  { destruct (isMatchCompleted m) eqn:C; trivial.
    apply isMatchCompleted_false in C. tauto. }
  split; [exact (checkIsGoalsCorrect_defined m s C E N)|].
  split.
  - intro U. unfold checkIsGoalsCorrect. rewrite E, C. cbn.
    unfold nonEmpty. apply String.eqb_neq in N. rewrite N. cbn.
    generalize (U Over25), (U Over15), (U Under35), (U BTTSYes), (U BTTSNo).
    unfold label. intros -> -> -> -> ->. reflexivity.
  - intros h a Hh Ha. unfold checkIsGoalsCorrect. rewrite E, C, Hh, Ha. cbn.
    unfold nonEmpty. apply String.eqb_neq in N. rewrite N. cbn.
    assert (X : (exists b, includes s (label b) = true /\ holds b h a)
                <-> (includes s "Over 2.5" = true /\ holds Over25 h a)
                    \/ (includes s "Over 1.5" = true /\ holds Over15 h a)
                    \/ (includes s "Under 3.5" = true /\ holds Under35 h a)
                    \/ (includes s "BTTS Yes" = true /\ holds BTTSYes h a)
                    \/ (includes s "BTTS No" = true /\ holds BTTSNo h a)).
    { split.
      - intros ([] & I & P); cbn in I; tauto.
      - intros [P | [P | [P | [P | P]]]];
          [exists Over25 | exists Over15 | exists Under35 | exists BTTSYes
           | exists BTTSNo]; exact P. }
    rewrite X. clear X. unfold holds.
    destruct (includes s "Over 2.5"), (includes s "Over 1.5"),
      (includes s "Under 3.5"), (includes s "BTTS Yes"), (includes s "BTTS No");
      cbn; repeat decide_check; cbn;
      unfold Qle, Qlt, Qeq, inject_Z in *; cbn in *;
      (split; [intro; try discriminate | intro; try reflexivity]);
      try (intuition (try discriminate; lia)).
Qed.

Lemma checkIsGoalsCorrect_unrecognised_witness :
  let m := {| country := "Austria"; result_suggestion := None;
              goals_suggestion := Some "Correct score 2-1";
              home_score := ScoreGoals 2; away_score := ScoreGoals 1 |} in
  checkIsGoalsCorrect m <> None /\ checkIsGoalsCorrect m = Some false.
Proof.
  intro m.
  destruct (checkIsGoalsCorrect_unrecognised m "Correct score 2-1"
              ltac:(discriminate) ltac:(discriminate) ltac:(discriminate)
              ltac:(discriminate) eq_refl ltac:(discriminate)) as [D [F _]].
  split; [exact D | apply F; intros []; reflexivity].
Defined.

(** ** The combined check *)

(** C6: the combined check is true iff both checks are defined and true,
    false iff both are defined and one of them is false, and undefined iff
    one of them is undefined. *)
Theorem checkIsBothCorrect_cases : forall m,
  (checkIsBothCorrect m = Some true <->
   checkIsForecastCorrect m = Some true /\ checkIsGoalsCorrect m = Some true)
  /\ (checkIsBothCorrect m = Some false <->
      exists f g, checkIsForecastCorrect m = Some f
                  /\ checkIsGoalsCorrect m = Some g
                  /\ (f = false \/ g = false))
  /\ (checkIsBothCorrect m = None <->
      checkIsForecastCorrect m = None \/ checkIsGoalsCorrect m = None).
Proof.
  intro m. unfold checkIsBothCorrect.
  destruct (checkIsForecastCorrect m) as [[|]|], (checkIsGoalsCorrect m) as [[|]|];
    cbn; repeat split;
    try discriminate; try tauto;
    try (intros [X Y]; discriminate);
    try (intros (f & g & X & Y & [Z | Z]); congruence);
    try (intros [X | X]; discriminate);
    try (intros _; eexists _, _; repeat split; tauto).
Qed.

End AnalysisFacts.

Module AggregatorFacts.
Import JS Analysis Samples JSFacts.
Local Open Scope string_scope.

(** ** The percentage *)

(** [calcAccuracy] counts the defined evaluations and, among them, the
    true ones, and is 0 without dividing when nothing is defined. *)
Lemma calcAccuracy_counts {A} (matches : list A) (checkFn : A -> option bool) :
  calcAccuracy matches checkFn =
  if (0 <? defined checkFn matches)%nat
  then Math_round ((ofNat (hits checkFn matches)
                    / ofNat (defined checkFn matches)) * 100)%float
  else 0%float.
Proof.
  unfold calcAccuracy, defined, hits.
  rewrite filter_filter, !length_filter_map.
  replace (List.length (filter (fun x => match checkFn x with
                                         | Some _ => true | None => false end
                                         && match checkFn x with
                                            | Some b => b | None => false end)
                               matches))
    with (List.length (filter (fun m => match checkFn m with
                                        | Some b => b | None => false end) matches)).
  - reflexivity.
  - f_equal. apply filter_ext. intro x. now destruct (checkFn x).
Qed.

Lemma calcAccuracy_none_defined {A} (matches : list A) (checkFn : A -> option bool) :
  defined checkFn matches = 0%nat -> calcAccuracy matches checkFn = 0%float.
Proof. intro E. rewrite calcAccuracy_counts, E. reflexivity. Qed.

Example calcAccuracy_3_of_4 :
  calcAccuracy [won; lost; pending; won; won] checkIsForecastCorrect = 75%float
  /\ roundedPercentage 3 4 = 75%Z.
Proof. vm_compute. split; reflexivity. Qed.

(** The binary64 quotient 23/40 is a little under 0.575, and its product
    with 100 is the double just under 57.5. *)
Example quotient_23_40 : ((23 / 40) * 100 = 0x1.cbfffffffffffp+5)%float.
Proof. vm_compute. reflexivity. Qed.

Example below_the_half : (0x1.cbfffffffffffp+5 <? 57.5)%float = true.
Proof. vm_compute. reflexivity. Qed.

(** C5, where the code departs from it: the quotient is rounded to a
    double before it is multiplied by 100. With 40 defined evaluations of
    which 23 are correct, round(100 * 23 / 40) is 58 and the code reports
    57. *)
Theorem calcAccuracy_23_of_40 :
  let season := (repeat won 23 ++ repeat lost 17)%list in
  defined checkIsForecastCorrect season = 40%nat
  /\ hits checkIsForecastCorrect season = 23%nat
  /\ calcAccuracy season checkIsForecastCorrect = 57%float
  /\ roundedPercentage 23 40 = 58%Z.
Proof. vm_compute. repeat split. Qed.

Example calculateAccuracy_23_40 :
  ChartsManager.calculateAccuracy 23 40 = 57%float.
Proof. vm_compute. reflexivity. Qed.

Example calculateAccuracy_of_none :
  ChartsManager.calculateAccuracy 0 0 = 0%float.
Proof. vm_compute. reflexivity. Qed.

(** ** The best league *)

Lemma better_keeps best e :
  (ratio (snd e) <= acc best)%Q -> better best e = best.
Proof.
  intro L. unfold better. apply Qle_bool_iff in L. now rewrite L.
Qed.

Lemma better_takes best e :
  (acc best < ratio (snd e))%Q ->
  better best e = {| league := fst e; acc := ratio (snd e) |}.
Proof.
  intro L. unfold better. apply Qle_bool_false in L. now rewrite L.
Qed.

(** The [reduce] either keeps its starting value, no entry being above
    it, or ends on the first of the entries with the greatest ratio. *)
Lemma pick_first_maximal : forall (E : props Stat) best,
  (Forall (fun e => ratio (snd e) <= acc best)%Q E /\ pick best E = best)
  \/ (exists pre g post,
        E = (pre ++ g :: post)%list
        /\ pick best E = {| league := fst g; acc := ratio (snd g) |}
        /\ (acc best < ratio (snd g))%Q
        /\ Forall (fun e => ratio (snd e) < ratio (snd g))%Q pre
        /\ Forall (fun e => ratio (snd e) <= ratio (snd g))%Q post).
Proof.
  induction E as [|e E IH]; intro best.
  - left. split; [constructor | reflexivity].
  - unfold pick. cbn [fold_left]. fold (pick (better best e) E).
    destruct (Qlt_le_dec (acc best) (ratio (snd e))) as [L | L].
    + rewrite (better_takes _ _ L).
      destruct (IH {| league := fst e; acc := ratio (snd e) |})
        as [[A P] | (pre & g & post & -> & P & B & Fpre & Fpost)]; right.
      * exists [], e, E. cbn in *. repeat split; auto.
      * exists (e :: pre), g, post. cbn in *. repeat split; auto.
        eapply Qlt_trans; eassumption.
    + rewrite (better_keeps _ _ L).
      destruct (IH best)
        as [[A P] | (pre & g & post & -> & P & B & Fpre & Fpost)].
      * left. split; [constructor; assumption | exact P].
      * right. exists (e :: pre), g, post. cbn. repeat split; auto.
        constructor; [eapply Qle_lt_trans; eassumption | assumption].
Qed.




Example getBestLeague_tie :
  getBestLeague [fine; {| country := "Brazil"; result_suggestion := Some "1";
                          goals_suggestion := Some "Over 2.5";
                          home_score := ScoreGoals 4; away_score := ScoreGoals 1 |}]
  = "Belgium".
Proof. reflexivity. Qed.

End AggregatorFacts.

(* ------------------------------------------------------------------ *)
(** * Sorting *)
(* ------------------------------------------------------------------ *)

Module SortFacts.
Import JS JSFacts.

Section Sorted.
Context {A : Type} (cmp : A -> A -> Z).
Let R (x y : A) : Prop := (cmp x y <= 0)%Z.
Hypothesis R_total : forall x y, R x y \/ R y x.
Hypothesis R_trans : forall x y z, R x y -> R y z -> R x z.

Lemma insert_sorted x l :
  StronglySorted R l -> StronglySorted R (insert cmp x l).
Proof.
  induction 1 as [|y l S IH F]; cbn.
  - repeat constructor.
  - destruct (Z.leb_spec (cmp x y) 0) as [L | G].
    + constructor; [now constructor|].
      constructor; [exact L|].
      eapply Forall_impl; [| exact F]. intros z Ryz. now apply R_trans with y.
    + constructor; [exact IH|].
      assert (Ryx : R y x) by (destruct (R_total x y) as [X | X]; [unfold R in X; lia | exact X]).
      rewrite Forall_forall. intros z I.
      apply (Permutation_in _ (insert_perm cmp x l)) in I.
      destruct I as [<- | I]; [exact Ryx|].
      rewrite Forall_forall in F. now apply F.
Qed.

Lemma sort_sorted l : StronglySorted R (sort cmp l).
Proof.
  induction l as [|x l IH]; cbn; [constructor|].
  now apply insert_sorted.
Qed.
End Sorted.

Lemma StronglySorted_mono {A} (R S : A -> A -> Prop) (l : list A) :
  (forall x y, R x y -> S x y) -> StronglySorted R l -> StronglySorted S l.
Proof.
  intro M. induction 1 as [|x l _ IH F]; constructor; trivial.
  eapply Forall_impl; [| exact F]. auto.
Qed.

(** Sorting by the difference of a numeric key orders by that key. *)
Lemma sort_by_key {A} (key : A -> Z) (l : list A) :
  StronglySorted (fun a b => key a <= key b)%Z (sort (fun a b => key a - key b)%Z l).
Proof.
  apply StronglySorted_mono with (R := fun a b => (key a - key b <= 0)%Z).
  - intros; lia.
  - apply (sort_sorted (fun a b => key a - key b)%Z); intros; lia.
Qed.

End SortFacts.

(* ------------------------------------------------------------------ *)
(** * The dashboard's display *)
(* ------------------------------------------------------------------ *)

Module DisplayFacts.
Import JS Dashboard Samples Display JSFacts SortFacts.
Local Open Scope string_scope.

(** ** Splitting at dashes *)

Lemma prefix_dash c s : prefix "-" (String c s) = Ascii.eqb "-"%char c.
Proof.
  change (prefix "-" (String c s))
    with (if ascii_dec "-" c then prefix EmptyString s else false).
  destruct (ascii_dec "-" c) as [<- | N].
  - rewrite Ascii.eqb_refl. now destruct s.
  - symmetry. now apply Ascii.eqb_neq.
Qed.

Lemma dashFree_cons c s :
  dashFree (String c s) -> c <> "-"%char /\ dashFree s.
Proof.
  unfold dashFree. cbn [includes]. intro E.
  apply orb_false_iff in E as [P I]. split; [| exact I].
  intros ->. rewrite prefix_dash, Ascii.eqb_refl in P. discriminate P.
Qed.

Lemma split_go_dashFree s cur :
  dashFree s -> split_go "-" s 0 cur = [cur ++ s].
Proof.
  revert cur. induction s as [|c s IH]; intros cur F.
  - cbn. f_equal. induction cur; cbn; congruence.
  - apply dashFree_cons in F as [N F].
    cbn [split_go]. rewrite prefix_dash.
    destruct (Ascii.eqb_spec "-"%char c) as [E | _]; [congruence|].
    rewrite IH by assumption. f_equal.
    induction cur; cbn; congruence.
Qed.

Lemma split_go_snoc s t cur :
  dashFree t ->
  split_go "-" (s ++ "-" ++ t) 0 cur = (split_go "-" s 0 cur ++ [t])%list.
Proof.
  intro F. revert cur. induction s as [|c s IH]; intro cur.
  - cbn [append split_go]. rewrite prefix_dash. cbn.
    now rewrite split_go_dashFree.
  - cbn [append split_go]. rewrite !prefix_dash.
    destruct (Ascii.eqb "-"%char c); cbn; now rewrite IH.
Qed.

Lemma split_snoc s t :
  dashFree t -> split (s ++ "-" ++ t) "-" = (split s "-" ++ [t])%list.
Proof. apply split_go_snoc. Qed.

Lemma split_dashFree s : dashFree s -> split s "-" = [s].
Proof. intro F. unfold split. now rewrite split_go_dashFree. Qed.

Lemma item_app_r (a b : list string) (i : nat) :
  (i < List.length b)%nat ->
  item (a ++ b)%list (Z.of_nat (List.length (a ++ b)%list) - Z.of_nat (List.length b - i))
  = nth_error b i.
Proof.
  intro L. unfold item. rewrite length_app.
  destruct (Z.ltb_spec (Z.of_nat (List.length a + List.length b)
                        - Z.of_nat (List.length b - i)) 0) as [N | _]; [lia|].
  replace (Z.to_nat _) with (List.length a + i)%nat by lia.
  rewrite nth_error_app2 by lia. f_equal. lia.
Qed.

Lemma append_assoc (a b c : string) : (a ++ b) ++ c = a ++ (b ++ c).
Proof. induction a; cbn; congruence. Qed.

Lemma split_plainId p y m d a b :
  dashFree y -> dashFree m -> dashFree d -> dashFree a -> dashFree b ->
  split (plainId p y m d a b) "-" = (split p "-" ++ [y; m; d; a; b])%list.
Proof.
  intros Fy Fm Fd Fa Fb. unfold plainId.
  replace (p ++ "-" ++ y ++ "-" ++ m ++ "-" ++ d ++ "-" ++ a ++ "-" ++ b)
    with (((((p ++ "-" ++ y) ++ "-" ++ m) ++ "-" ++ d) ++ "-" ++ a) ++ "-" ++ b)
    by (rewrite !append_assoc; reflexivity).
  rewrite !split_snoc by assumption.
  rewrite <- !app_assoc. reflexivity.
Qed.

Lemma split_day y m d :
  dashFree y -> dashFree m -> dashFree d ->
  split (y ++ "-" ++ m ++ "-" ++ d) "-" = [y; m; d].
Proof.
  intros Fy Fm Fd.
  replace (y ++ "-" ++ m ++ "-" ++ d) with ((y ++ "-" ++ m) ++ "-" ++ d)
    by (rewrite !append_assoc; reflexivity).
  rewrite !split_snoc, split_dashFree by assumption. reflexivity.
Qed.

Section Host.
Variable location_search : string.
Variable toLowerCase : string -> string.
Variable eval : string -> Models -> Completion bool.
Variable newDate : option string -> option string -> option string -> TimeValue.

Let keeps := keeps location_search toLowerCase eval newDate.
Let applyFilters := applyFilters location_search toLowerCase eval newDate.
Let parseDate := parseDate location_search newDate.

Lemma parseDate_markos_plainId p y m d a b :
  dashFree y -> dashFree m -> dashFree d -> dashFree a -> dashFree b ->
  parseDate_markos newDate (plainId p y m d a b)
  = newDate (Some y) (Some m) (Some d).
Proof.
  intros Fy Fm Fd Fa Fb. unfold parseDate_markos.
  rewrite split_plainId by assumption.
  set (l := split p "-").
  change 5%Z with (Z.of_nat (List.length [y; m; d; a; b] - 0)).
  change 4%Z with (Z.of_nat (List.length [y; m; d; a; b] - 1)).
  change 3%Z with (Z.of_nat (List.length [y; m; d; a; b] - 2)).
  rewrite !item_app_r by (cbn; lia).
  reflexivity.
Qed.

Lemma parseDate_plain matchId :
  includes location_search "odds" = false ->
  parseDate matchId = Normal (parseDate_markos newDate matchId).
Proof.
  intro O. unfold parseDate, Dashboard.parseDate. now rewrite O.
Qed.

Lemma keeps_text f m :
  includes location_search "odds" = false ->
  includes (search f) "q:" = false ->
  keeps f m = Normal (textKeeps toLowerCase newDate f m).
Proof.
  intros O I.
  unfold keeps, Dashboard.keeps, passesRest, passesDateFrom, passesDateTo, textKeeps.
  rewrite I, !(parseDate_plain _ O).
  destruct (nonEmpty (search f)), (passesSearch toLowerCase f (match_info m)),
    (passesDivision f (match_info m)), (nonEmpty (dateFrom f)),
    (nonEmpty (dateTo f)); cbn; trivial;
    repeat match goal with
           | |- context [before ?a ?b] => destruct (before a b); cbn
           end; trivial.
Qed.

End Host.

(** ** The filters, mode by mode *)

Lemma filter_true {A} (l : list A) : filter (fun _ => true) l = l.
Proof. induction l; cbn; congruence. Qed.

(** X1: with the criteria of the constructor and of [clearFilters],
    [applyFilters] returns every match it is given, in order, whatever
    the page and the host. *)
Theorem applyFilters_cleared :
  forall location_search toLowerCase eval newDate matches,
  applyFilters location_search toLowerCase eval newDate clearedFilters matches
  = Normal matches.
Proof.
  intros. unfold applyFilters.
  rewrite (filterM_total _ (fun _ => true)); [now rewrite filter_true|].
  reflexivity.
Qed.

(** X2: in predicate mode [applyFilters] always returns, and it returns
    the matches on which the expression is not falsy: those on which it
    is truthy and those on which it throws. *)
Theorem applyFilters_predicate_total :
  forall location_search toLowerCase eval newDate f matches,
  includes (search f) "q:" = true ->
  exists out,
    applyFilters location_search toLowerCase eval newDate f matches = Normal out
    /\ forall m, In m out <->
                 In m matches
                 /\ eval (advancedQuery (search f)) (model_predictions m)
                    <> Normal false.
Proof.
  intros ls lc ev nd f matches I.
  exists (filter (predicateKeeps ev f) matches). split.
  - now apply FilterFacts.applyFilters_predicate_mode.
  - intro m. rewrite filter_In. unfold predicateKeeps.
    destruct (ev _ _) as [[|]|e]; intuition (try discriminate; try congruence).
Qed.

Lemma applyFilters_predicate_total_witness :
  let f := {| search := "q:models.poisson.X > 0.5"; division := "E0";
              dateFrom := "2025-01-01"; dateTo := EmptyString |} in
  let l := [fixture "Arsenal" "Leeds" "E0" (poisson 0.6);
            fixture "Bolton" "Derby" "E2" []] in
  exists out,
    applyFilters "?odds" lowerAscii evalSample noDate f l = Normal out
    /\ forall m, In m out <->
                 In m l
                 /\ evalSample (advancedQuery (search f)) (model_predictions m)
                    <> Normal false.
Proof.
  intros f l.
  exact (applyFilters_predicate_total "?odds" lowerAscii evalSample noDate f l eq_refl).
Defined.

(** X3: on the [odds] page, with a text search or none and a date bound
    set, a match that passes the search and the division and whose
    identifier holds no dash makes [applyFilters] throw: [parseDate]
    splits a second piece that does not exist, and nothing catches it. *)
Theorem applyFilters_odds_throws :
  forall location_search toLowerCase eval newDate f m rest,
  includes location_search "odds" = true ->
  includes (search f) "q:" = false ->
  (nonEmpty (search f) = true -> passesSearch toLowerCase f (match_info m) = true) ->
  passesDivision f (match_info m) = true ->
  nonEmpty (dateFrom f) = true \/ nonEmpty (dateTo f) = true ->
  dashFree (MatchId (match_info m)) ->
  applyFilters location_search toLowerCase eval newDate f (m :: rest)
  = Throw "TypeError".
Proof.
  intros ls lc ev nd f m rest O I S D B F.
  assert (P : parseDate ls nd (MatchId (match_info m)) = Throw "TypeError").
  { unfold parseDate. rewrite O, (split_dashFree _ F). reflexivity. }
  assert (K : keeps ls lc ev nd f m = Throw "TypeError").
  { unfold keeps, passesRest, passesDateFrom, passesDateTo. rewrite I, D, P.
    destruct (nonEmpty (search f)).
    - rewrite (S eq_refl). cbn.
      destruct (nonEmpty (dateFrom f)); cbn; trivial.
      destruct B as [B | B]; [discriminate | now rewrite B].
    - cbn. destruct (nonEmpty (dateFrom f)); cbn; trivial.
      destruct B as [B | B]; [discriminate | now rewrite B]. }
  unfold applyFilters. cbn. now rewrite K.
Qed.

Lemma applyFilters_odds_throws_witness :
  let f := {| search := EmptyString; division := "all";
              dateFrom := "2025-01-01"; dateTo := EmptyString |} in
  let m := {| id := "x";
              match_info := {| MatchId := "E0"; Div := "E0"; Home := "Arsenal";
                               Away := "Leeds"; Date := 0; FTHG := FTNull;
                               FTAG := FTNull |};
              model_predictions := [] |} in
  applyFilters "?odds" lowerAscii evalSample noDate f [m] = Throw "TypeError".
Proof.
  intros f m.
  refine (applyFilters_odds_throws "?odds" lowerAscii evalSample noDate f m []
            eq_refl eq_refl _ eq_refl (or_introl eq_refl) eq_refl).
  discriminate.
Defined.

(** X4: away from the [odds] page, [parseDate] reads the year, month and
    day off the fifth, fourth and third piece from the end of the
    identifier, whatever dashes the pieces before them hold. *)
Theorem parseDate_plainId :
  forall location_search newDate p y m d a b,
  includes location_search "odds" = false ->
  dashFree y -> dashFree m -> dashFree d -> dashFree a -> dashFree b ->
  parseDate location_search newDate (plainId p y m d a b)
  = Normal (newDate (Some y) (Some m) (Some d)).
Proof.
  intros ls nd p y m d a b O Fy Fm Fd Fa Fb.
  rewrite (parseDate_plain ls nd _ O).
  now rewrite parseDate_markos_plainId.
Qed.

Lemma parseDate_plainId_witness :
  parseDate EmptyString (fun y m d => match y, m, d with
                                      | Some "2025", Some "08", Some "16" => Some 20316%Z
                                      | _, _, _ => None
                                      end)
            (plainId "E0-Arsenal-Leeds" "2025" "08" "16" "15" "00")
  = Normal (Some 20316%Z).
Proof.
  exact (parseDate_plainId EmptyString _ "E0-Arsenal-Leeds" "2025" "08" "16" "15" "00"
           eq_refl eq_refl eq_refl eq_refl eq_refl eq_refl).
Defined.

Lemma textKeeps_markos toLowerCase newDate f m :
  textKeeps toLowerCase newDate f m = keeps_markos toLowerCase newDate f m.
Proof.
  unfold textKeeps, keeps_markos.
  destruct (nonEmpty (search f)), (passesSearch toLowerCase f (match_info m)),
    (passesDivision f (match_info m)), (nonEmpty (dateFrom f)),
    (nonEmpty (dateTo f)); cbn; trivial;
    repeat match goal with
           | |- context [before ?a ?b] => destruct (before a b); cbn
           end; trivial.
Qed.

(** X5: away from the [odds] page and with no [q:] marker in the search,
    [applyFilters] returns, and returns what the earlier copy of the
    dashboard returns: the matches that pass the search text, the
    division and both date bounds. *)
Theorem applyFilters_as_before :
  forall location_search toLowerCase eval newDate f matches,
  includes location_search "odds" = false ->
  includes (search f) "q:" = false ->
  applyFilters location_search toLowerCase eval newDate f matches
  = Normal (applyFilters_markos toLowerCase newDate f matches).
Proof.
  intros ls lc ev nd f matches O I. unfold applyFilters, applyFilters_markos.
  apply filterM_total. intros m _.
  rewrite <- textKeeps_markos. now apply keeps_text.
Qed.

Lemma applyFilters_as_before_witness :
  let f := {| search := "ars"; division := "E0";
              dateFrom := EmptyString; dateTo := EmptyString |} in
  let a := fixture "Arsenal" "Leeds" "E0" [] in
  let b := fixture "Barnsley" "Derby" "E1" [] in
  applyFilters EmptyString lowerAscii evalSample noDate f [a; b]
  = Normal (applyFilters_markos lowerAscii noDate f [a; b]).
Proof.
  intros f a b.
  exact (applyFilters_as_before EmptyString lowerAscii evalSample noDate f [a; b]
           eq_refl eq_refl).
Defined.

Lemma before_irrefl t : before t t = false.
Proof. destruct t; cbn; [apply Z.ltb_irrefl | reflexivity]. Qed.

Lemma nonEmpty_day y m d : nonEmpty (y ++ "-" ++ m ++ "-" ++ d) = true.
Proof. destruct y; reflexivity. Qed.

Lemma boundDate_day newDate y m d :
  dashFree y -> dashFree m -> dashFree d ->
  boundDate newDate (y ++ "-" ++ m ++ "-" ++ d)
  = newDate (Some y) (Some m) (Some d).
Proof.
  intros Fy Fm Fd. unfold boundDate. now rewrite split_day.
Qed.

(** X6: a match whose identifier carries the day [y-m-d] is kept when
    both date bounds are that day: the bounds are inclusive. *)
Theorem applyFilters_single_day :
  forall location_search toLowerCase eval newDate mt p y m d a b,
  includes location_search "odds" = false ->
  dashFree y -> dashFree m -> dashFree d -> dashFree a -> dashFree b ->
  MatchId (match_info mt) = plainId p y m d a b ->
  let day := y ++ "-" ++ m ++ "-" ++ d in
  applyFilters location_search toLowerCase eval newDate
    {| search := EmptyString; division := "all"; dateFrom := day; dateTo := day |}
    [mt]
  = Normal [mt].
Proof.
  intros ls lc ev nd mt p y m d a b O Fy Fm Fd Fa Fb E day.
  unfold applyFilters.
  rewrite (filterM_total _ (textKeeps lc nd _))
    by (intros; now apply keeps_text).
  cbn [filter]. unfold textKeeps. cbn [search division dateFrom dateTo].
  subst day.
  rewrite nonEmpty_day, E, parseDate_markos_plainId, boundDate_day by assumption.
  rewrite before_irrefl. reflexivity.
Qed.

Lemma applyFilters_single_day_witness :
  let mt := fixture "Arsenal" "Leeds" "E0" [] in
  applyFilters EmptyString lowerAscii evalSample noDate
    {| search := EmptyString; division := "all";
       dateFrom := "2025-08-16"; dateTo := "2025-08-16" |} [mt]
  = Normal [mt].
Proof.
  intro mt.
  exact (applyFilters_single_day EmptyString lowerAscii evalSample noDate mt
           "E0" "2025" "08" "16" "Arsenal" "Leeds"
           eq_refl eq_refl eq_refl eq_refl eq_refl eq_refl eq_refl).
Defined.

(** X7: [categorizeMatches] returns the upcoming and the unresolved
    matches by ascending date and the resolved ones by descending
    date. *)
Theorem categorizeMatches_sorted : forall currentDate matches,
  let c := categorizeMatches currentDate matches in
  StronglySorted (fun a b => Date (match_info a) <= Date (match_info b))%Z (upcoming c)
  /\ StronglySorted (fun a b => Date (match_info a) <= Date (match_info b))%Z
                    (unresolved c)
  /\ StronglySorted (fun a b => Date (match_info b) <= Date (match_info a))%Z
                    (resolved c).
Proof.
  intros currentDate matches c. subst c. unfold categorizeMatches. cbn.
  repeat split.
  - apply (sort_by_key (fun m => Date (match_info m))).
  - apply (sort_by_key (fun m => Date (match_info m))).
  - apply StronglySorted_mono
      with (R := fun a b => (Date (match_info b) - Date (match_info a) <= 0)%Z);
      [intros; lia|].
    apply (sort_sorted (fun a b => Date (match_info b) - Date (match_info a))%Z);
      intros; lia.
Qed.

(** ** Tabs, divisions and prediction cards *)

Lemma filter_length_le {A} (p : A -> bool) (l : list A) :
  (List.length (filter p l) <= List.length l)%nat.
Proof. induction l as [|x l IH]; cbn; [lia|]. destruct (p x); cbn; lia. Qed.

Lemma applyFilters_length ls lc ev nd f l out :
  applyFilters ls lc ev nd f l = Normal out ->
  (List.length out <= List.length l)%nat.
Proof.
  intro E. apply filterM_filter in E. subst out. apply filter_length_le.
Qed.

Lemma categorizeMatches_length currentDate matches :
  let c := categorizeMatches currentDate matches in
  (List.length (upcoming c) + List.length (unresolved c) + List.length (resolved c)
   = List.length matches)%nat.
Proof.
  intro c. subst c. unfold categorizeMatches. cbn.
  rewrite !(Permutation_length (sort_perm _ _)).
  rewrite <- !length_app. apply Permutation_length.
  rewrite <- app_assoc. apply filter3_perm. intros m _.
  destruct (hasResult m); cbn.
  - rewrite !andb_false_r. tauto.
  - rewrite !andb_true_r.
    destruct (Z.leb_spec currentDate (Date (match_info m)));
      destruct (Z.ltb_spec (Date (match_info m)) currentDate); try lia; tauto.
Qed.

Lemma filteredCategories_length ls lc ev nd f currentDate allMatches shown :
  filteredCategories ls lc ev nd f currentDate allMatches = Normal shown ->
  let '(u, n, r) := tabCounts shown in
  (u + n + r <= List.length allMatches)%nat.
Proof.
  pose proof (categorizeMatches_length currentDate allMatches) as L. cbv zeta in L.
  unfold filteredCategories.
  destruct (applyFilters ls lc ev nd f (upcoming _)) as [u|] eqn:U; [|discriminate].
  destruct (applyFilters ls lc ev nd f (unresolved _)) as [n|] eqn:N; [|discriminate].
  destruct (applyFilters ls lc ev nd f (resolved _)) as [r|] eqn:R; [|discriminate].
  cbn. intros [= <-]. cbn.
  apply applyFilters_length in U, N, R. lia.
Qed.

Lemma filteredCategories_cleared ls lc ev nd currentDate allMatches :
  filteredCategories ls lc ev nd clearedFilters currentDate allMatches
  = Normal (categorizeMatches currentDate allMatches).
Proof.
  unfold filteredCategories, applyFilters.
  rewrite !(filterM_total _ (fun _ => true)) by reflexivity.
  rewrite !filter_true. reflexivity.
Qed.

Lemma createMatchCards_plain ls nd matches :
  includes ls "odds" = false -> createMatchCards ls nd matches = Normal tt.
Proof.
  intro O. induction matches as [|m l IH]; cbn; trivial.
  unfold createMatchCard, formatDate. rewrite (parseDate_plain ls nd _ O). cbn.
  exact IH.
Qed.

(** X8: when [updateMatchDisplays] gets as far as reporting the tab
    counts, they add up to no more than the number of matches; when it
    does not, it throws. With cleared filters it always reports them, and
    they add up to exactly that number, however the rendering that
    follows ends; away from the [odds] page, with the note for an empty
    list in place and a tab that names no member of [Object.prototype],
    that call returns. *)
Theorem updateMatchDisplays_counts :
  forall location_search toLowerCase eval newDate currentTab container noMatchesEl
         renderInherited currentDate allMatches,
  let shows :=
    updateMatchDisplays location_search toLowerCase eval newDate currentTab container
      noMatchesEl renderInherited in
  (forall f,
     match reported (shows f currentDate allMatches) with
     | Some (u, n, r) => (u + n + r <= List.length allMatches)%nat
     | None => exists e, outcome (shows f currentDate allMatches) = Throw e
     end)
  /\ (exists u n r,
        reported (shows clearedFilters currentDate allMatches) = Some (u, n, r)
        /\ (u + n + r = List.length allMatches)%nat)
  /\ (includes location_search "odds" = false -> noMatchesEl = true ->
      inherited currentTab = false ->
      outcome (shows clearedFilters currentDate allMatches) = Normal tt).
Proof.
  intros ls lc ev nd tab container note renderInherited currentDate allMatches shows.
  subst shows. split; [| split].
  - intro f. unfold updateMatchDisplays.
    destruct (filteredCategories ls lc ev nd f currentDate allMatches)
      as [shown | e] eqn:E; cbn.
    + exact (filteredCategories_length _ _ _ _ _ _ _ _ E).
    + now exists e.
  - unfold updateMatchDisplays. rewrite filteredCategories_cleared. cbn.
    do 3 eexists. split; [reflexivity|].
    exact (categorizeMatches_length currentDate allMatches).
  - intros O -> I. unfold updateMatchDisplays. rewrite filteredCategories_cleared.
    cbn [outcome]. unfold currentMatches, renderMatches. rewrite I.
    destruct (tab =? "upcoming"); [| destruct (tab =? "unresolved");
      [| destruct (tab =? "resolved")]];
      destruct container; cbn; trivial; now apply createMatchCards_plain.
Qed.

(** On the [odds] page the counts are reported and the rendering then
    throws on a match whose identifier holds no dash. *)
Example updateMatchDisplays_run :
  let m := {| id := "x";
              match_info := {| MatchId := "E0"; Div := "E0"; Home := "Arsenal";
                               Away := "Leeds"; Date := 1755302400000;
                               FTHG := FTNull; FTAG := FTNull |};
              model_predictions := [] |} in
  updateMatchDisplays "?odds" lowerAscii evalSample noDate "upcoming" true true
    (fun _ => Normal tt) clearedFilters 1700000000000 [m]
  = {| reported := Some (1, 0, 0)%nat; outcome := Throw "TypeError" |}.
Proof. reflexivity. Qed.

Lemma unique_from_spec seen a :
  NoDup (unique_from seen a)
  /\ forall x, In x (unique_from seen a) <-> In x a /\ ~ In x seen.
Proof.
  revert seen. induction a as [|y a IH]; intro seen; cbn.
  - split; [constructor | tauto].
  - destruct (existsb (String.eqb y) seen) eqn:E.
    + destruct (IH seen) as [D M]. split; [exact D|].
      intro x. rewrite M.
      apply existsb_exists in E as (z & I & Q). apply String.eqb_eq in Q. subst z.
      split; [tauto|]. intros [[<- | I'] N]; tauto.
    + destruct (IH (y :: seen)) as [D M].
      assert (Ny : ~ In y seen).
      { intro I. apply (f_equal negb) in E. cbn in E.
        assert (X : existsb (String.eqb y) seen = true)
          by (apply existsb_exists; exists y; split; [exact I | apply String.eqb_refl]).
        rewrite X in E. discriminate. }
      split.
      * constructor; [| exact D]. rewrite M. cbn. tauto.
      * intro x. cbn. rewrite M. cbn.
        destruct (String.string_dec y x) as [<- | Nx]; [tauto|]. tauto.
Qed.

(** X9: [populateDivisionFilter] offers every division that some match
    has, each once. *)
Theorem divisions_once : forall allMatches,
  NoDup (divisions allMatches)
  /\ forall d, In d (divisions allMatches) <->
               exists m, In m allMatches /\ Div (match_info m) = d.
Proof.
  intro allMatches. unfold divisions, unique.
  destruct (unique_from_spec [] (map (fun m => Div (match_info m)) allMatches))
    as [D M].
  split; [exact D|]. intro d. rewrite M, in_map_iff. cbn.
  split; [intros [(m & E & I) _]; eauto | intros (m & I & E); eauto].
Qed.

(** X10: [getModelPriority] over the three families: 99 exactly when the
    model name holds none of them; otherwise twice the index of the
    first family the name holds, plus one exactly when the name holds
    [combined]. *)
Theorem getModelPriority_family : forall model,
  let p := getModelPriority model family in
  (p = 99%Z <-> (includes model "rain" = false /\ includes model "xgb" = false
                /\ includes model "net" = false))
  /\ (p <> 99%Z ->
      (0 <= p <= 5)%Z
      /\ Z.odd p = includes model "combined"
      /\ includes model (nth (Z.to_nat (p / 2)) family EmptyString) = true
      /\ forall i, (i < Z.to_nat (p / 2))%nat ->
                   includes model (nth i family EmptyString) = false).
Proof.
  intro model. cbv zeta. unfold getModelPriority, family. cbn [getModelPriority_from].
  destruct (includes model "rain") eqn:R;
    [| destruct (includes model "xgb") eqn:X;
       [| destruct (includes model "net") eqn:N]];
    destruct (includes model "combined") eqn:C; cbn;
    (split; [split; [intro; try discriminate; try tauto
                    | intros (? & ? & ?); try discriminate; reflexivity]
            | intro Q; try (exfalso; apply Q; reflexivity);
              repeat split; try lia; trivial;
              intros [|[|[|i]]] L; try lia; trivial]).
Qed.

(** X11: [createMatchCard] shows every prediction of the match once, by
    ascending priority of the model. *)
Theorem shownPredictions_ordered : forall matchPredictions,
  Permutation (shownPredictions matchPredictions) (entries matchPredictions)
  /\ StronglySorted
       (fun a b => getModelPriority (fst a) family <= getModelPriority (fst b) family)%Z
       (shownPredictions matchPredictions).
Proof.
  intro matchPredictions. unfold shownPredictions. split.
  - apply sort_perm.
  - apply (sort_by_key (fun a => getModelPriority (fst a) family)).
Qed.

Example shownPredictions_run :
  map fst (shownPredictions
             [("poisson", {| _1 := 0.3; X := 0.3; _2 := 0.4; H := 1; A := 1 |});
              ("combined-xgboost", {| _1 := 0.3; X := 0.3; _2 := 0.4; H := 1; A := 1 |});
              ("neural-network", {| _1 := 0.3; X := 0.3; _2 := 0.4; H := 1; A := 1 |});
              ("combined-rainforest", {| _1 := 0.3; X := 0.3; _2 := 0.4; H := 1; A := 1 |});
              ("rainforest", {| _1 := 0.3; X := 0.3; _2 := 0.4; H := 1; A := 1 |})])
  = ["rainforest"; "combined-rainforest"; "combined-xgboost"; "neural-network";
     "poisson"].
Proof. reflexivity. Qed.

Lemma unique_from_In seen a x :
  In x (unique_from seen a) -> In x a.
Proof.
  revert seen. induction a as [|y a IH]; intro seen; cbn; [tauto|].
  destruct (existsb (String.eqb y) seen).
  - intro I. right. now apply (IH seen).
  - intros [-> | I]; [now left | right; now apply (IH (y :: seen))].
Qed.

(** X12: choosing one of the options [populateDivisionFilter] offers (a
    division whose name is not empty and not [all]) and nothing else in
    the form shows the matches of that division, in their order, and
    there is at least one. *)
Theorem division_option_selects :
  forall location_search toLowerCase eval newDate allMatches d,
  In d (divisions allMatches) ->
  d <> "all" -> d <> EmptyString ->
  let shown := filter (fun m => Div (match_info m) =? d) allMatches in
  applyFilters location_search toLowerCase eval newDate
    (updateFiltersFromForm (Some EmptyString) (Some d) (Some EmptyString) None)
    allMatches
  = Normal shown
  /\ shown <> [].
Proof.
  intros ls lc ev nd allMatches d I N E shown. split.
  - apply filterM_total. intros m _.
    unfold updateFiltersFromForm, valueOr.
    assert (Nd : nonEmpty d = true)
      by (unfold nonEmpty; apply String.eqb_neq in E; now rewrite E).
    rewrite Nd.
    unfold keeps, passesRest, passesDivision, passesDateFrom, passesDateTo. cbn.
    apply String.eqb_neq in N. rewrite N. cbn.
    now destruct (Div (match_info m) =? d).
  - unfold divisions, unique in I. apply unique_from_In in I.
    apply in_map_iff in I as (m & Q & Im).
    assert (X : In m shown).
    { apply filter_In. split; [exact Im | now apply String.eqb_eq]. }
    intro Z. rewrite Z in X. exact X.
Qed.

Lemma division_option_selects_witness :
  let l := [fixture "Arsenal" "Leeds" "E0" []; fixture "Bolton" "Derby" "E2" []] in
  applyFilters EmptyString lowerAscii evalSample noDate
    (updateFiltersFromForm (Some EmptyString) (Some "E2") (Some EmptyString) None) l
  = Normal [fixture "Bolton" "Derby" "E2" []]
  /\ [fixture "Bolton" "Derby" "E2" []] <> [].
Proof.
  intro l.
  refine (division_option_selects EmptyString lowerAscii evalSample noDate l "E2" _ _ _).
  - right. left. reflexivity.
  - discriminate.
  - discriminate.
Defined.

Lemma descending_le a b : (descending a b <= 0)%Z <-> (b <= a)%Q.
Proof.
  unfold descending. destruct (Qcompare_spec b a) as [E | L | G].
  - split; [intros _; rewrite E; apply Qle_refl | lia].
  - split; [intros _; now apply Qlt_le_weak | lia].
  - split; [lia | intro L; exfalso; exact (Qlt_not_le _ _ G L)].
Qed.

Lemma sort_descending (l : list Q) :
  StronglySorted (fun a b => b <= a)%Q (sort descending l).
Proof.
  apply StronglySorted_mono with (R := fun a b => (descending a b <= 0)%Z).
  - intros a b. apply descending_le.
  - apply (sort_sorted descending).
    + intros a b. rewrite !descending_le.
      destruct (Qlt_le_dec a b); [right; now apply Qlt_le_weak | now left].
    + intros a b c. rewrite !descending_le. intros H1 H2.
      apply Qle_trans with b; assumption.
Qed.

(** The three probabilities, sorted: the first is the greatest and the
    last the least of them. *)
Lemma sorted_three a b c :
  exists s0 s1 s2,
    sort descending [a; b; c] = [s0; s1; s2]
    /\ Permutation [s0; s1; s2] [a; b; c]
    /\ (s1 <= s0)%Q /\ (s2 <= s1)%Q.
Proof.
  pose proof (sort_perm descending [a; b; c]) as P.
  pose proof (sort_descending [a; b; c]) as S.
  destruct (sort descending [a; b; c]) as [|s0 [|s1 [|s2 [|s3 l]]]];
    try (apply Permutation_length in P; discriminate P).
  exists s0, s1, s2. split; [reflexivity|]. split; [exact P|].
  inversion S as [|? ? S1 F0]; subst. inversion S1 as [|? ? S2 F1]; subst.
  inversion F0; subst. inversion F1; subst. now split.
Qed.

Lemma class_ranked p value :
  In value [_1 p; X p; _2 p] ->
  ranked p value
    (if Qeq_bool value (nth 0 (sort descending [_1 p; X p; _2 p]) 0%Q) then Highest
     else if Qeq_bool value (nth 2 (sort descending [_1 p; X p; _2 p]) 0%Q) then Lowest
     else Medium).
Proof.
  intro I.
  destruct (sorted_three (_1 p) (X p) (_2 p)) as (s0 & s1 & s2 & -> & P & L1 & L2).
  cbn [nth].
  assert (Top : forall w, In w [_1 p; X p; _2 p] -> (w <= s0)%Q).
  { intros w Iw. apply (Permutation_in _ (Permutation_sym P)) in Iw.
    destruct Iw as [<- | [<- | [<- | []]]];
      [apply Qle_refl | exact L1 | now apply Qle_trans with s1]. }
  assert (Bot : forall w, In w [_1 p; X p; _2 p] -> (s2 <= w)%Q).
  { intros w Iw. apply (Permutation_in _ (Permutation_sym P)) in Iw.
    destruct Iw as [<- | [<- | [<- | []]]];
      [now apply Qle_trans with s1 | exact L2 | apply Qle_refl]. }
  assert (I0 : In s0 [_1 p; X p; _2 p]) by (apply (Permutation_in _ P); now left).
  assert (I2 : In s2 [_1 p; X p; _2 p])
    by (apply (Permutation_in _ P); right; right; now left).
  unfold ranked.
  destruct (Qeq_bool value s0) eqn:E0.
  - apply Qeq_bool_iff in E0. intros w Iw. rewrite E0. now apply Top.
  - assert (N0 : ~ forall w, In w [_1 p; X p; _2 p] -> (w <= value)%Q).
    { intro G. apply Qeq_bool_neq in E0. apply E0.
      apply Qle_antisym; [now apply Top | now apply G]. }
    destruct (Qeq_bool value s2) eqn:E2.
    + apply Qeq_bool_iff in E2. split; [|exact N0].
      intros w Iw. rewrite E2. now apply Bot.
    + split; [|exact N0]. intro G. apply Qeq_bool_neq in E2. apply E2.
      apply Qle_antisym; [now apply G | now apply Bot].
Qed.

(** X13: the class names of the three probabilities of a prediction say
    their rank: [highest] goes to every probability no other exceeds,
    [lowest] to one that none is below and that is not the highest, and
    [medium] to the rest; some probability is always [highest]. *)
Theorem probabilityClasses_ranked : forall predictions,
  exists c1 cX c2,
    probabilityClasses predictions = [c1; cX; c2]
    /\ ranked predictions (_1 predictions) c1
    /\ ranked predictions (X predictions) cX
    /\ ranked predictions (_2 predictions) c2
    /\ In Highest [c1; cX; c2].
Proof.
  intro p. unfold probabilityClasses. cbn [map]. do 3 eexists.
  split; [reflexivity|].
  split; [apply class_ranked; now left|].
  split; [apply class_ranked; right; now left|].
  split; [apply class_ranked; right; right; now left|].
  destruct (sorted_three (_1 p) (X p) (_2 p)) as (s0 & s1 & s2 & -> & P & _).
  cbn [nth].
  assert (I0 : In s0 [_1 p; X p; _2 p]) by (apply (Permutation_in _ P); now left).
  destruct I0 as [<- | [<- | [<- | []]]]; rewrite Qeq_bool_refl; cbn; tauto.
Qed.

Example probabilityClasses_run :
  probabilityClasses {| _1 := 0.5; X := 0.3; _2 := 0.2; H := 1; A := 1 |}
  = [Highest; Medium; Lowest]
  /\ probabilityClasses {| _1 := 0.4; X := 0.4; _2 := 0.2; H := 1; A := 1 |}
     = [Highest; Highest; Lowest]
  /\ probabilityClasses {| _1 := 0.4; X := 0.3; _2 := 0.3; H := 1; A := 1 |}
     = [Highest; Lowest; Lowest].
Proof. repeat split. Qed.

End DisplayFacts.

(* ------------------------------------------------------------------ *)
(** * The preset store, read from outside *)
(* ------------------------------------------------------------------ *)

Module PresetStoreFacts.
Import JS Dashboard FilterPresetManager JSFacts ObjectFacts PresetFacts SortFacts PresetStore.
Local Open Scope string_scope.

Lemma set_keeps_keys {V} (o : props V) k v k' :
  In k' (ownKeys o) -> In k' (ownKeys (set o k v)).
Proof.
  intro I. unfold set, hasOwn.
  destruct (getOwn o k); [now rewrite ownKeys_replace|].
  destruct (String.eqb k "__proto__"); trivial.
  unfold ownKeys. rewrite map_app. apply in_or_app. now left.
Qed.

Lemma assign_keeps_keys {V} (target source : props V) k :
  In k (ownKeys target) -> In k (ownKeys (assign target source)).
Proof.
  unfold assign. revert target.
  induction source as [|[k1 v1] s IH]; cbn; intros t I; trivial.
  apply IH. now apply set_keeps_keys.
Qed.

Lemma getAll_has_defaults st k :
  st <> Unparsable -> In k (ownKeys getDefaultPresets) -> In k (ownKeys (getAll st)).
Proof.
  intros N I. unfold getAll.
  destruct st as [| |j]; [| contradiction |]; cbn [loadFromStorage bind];
    now apply assign_keeps_keys.
Qed.

Lemma delete_NoDup {V} (o : props V) k : NoDup (ownKeys o) -> NoDup (ownKeys (JS.delete o k)).
Proof.
  unfold ownKeys, JS.delete. induction o as [|[k1 v1] o IH]; cbn; intro D; trivial.
  inversion D as [|? ? N D']; subst.
  destruct (String.eqb k k1); cbn; auto.
  constructor; auto. rewrite in_map_iff. intros ([k2 v2] & E & I). cbn in E. subst k2.
  apply filter_In in I as [I _]. apply N. change k1 with (fst (k1, v2)). now apply in_map.
Qed.

Lemma getOwn_delete_other {V} (o : props V) k k' :
  k' <> k -> getOwn (JS.delete o k) k' = getOwn o k'.
Proof.
  intro N. unfold JS.delete. induction o as [|[k1 v1] o IH]; cbn; trivial.
  destruct (String.eqb_spec k k1) as [<- | N1]; cbn.
  - destruct (String.eqb_spec k' k); [contradiction | exact IH].
  - now rewrite IH.
Qed.

(** Writing an object and merging it again over the defaults gives back
    its own properties, for every name the defaults do not add. *)
Lemma getAll_store_own presets k :
  NoDup (ownKeys presets) -> getOwn presets "__proto__" = None ->
  (getOwn presets k = None -> getOwn getDefaultPresets k = None) ->
  getOwn (getAll (store presets)) k = getOwn presets k.
Proof.
  intros D P K. rewrite getAll_store.
  destruct (getOwn presets k) as [v|] eqn:E.
  - apply getOwn_assign_written.
    + now apply entries_NoDup, entries_NoDup.
    + now apply entries_In, entries_In, getOwn_In.
    + intros ->. congruence.
  - apply getOwn_assign_absent; [now apply K|].
    rewrite !entries_keys. now apply getOwn_None.
Qed.

Lemma load_get name st :
  load name st = match get (getAll st) name with
                 | Own v => if truthy v then Value v else Null
                 | Inherited k => Builtin k
                 | Undefined => Null
                 end.
Proof. reflexivity. Qed.

(** X14: saving a preset leaves what [load] returns for every other
    name as it was, on a store that parses and holds no [__proto__]
    entry. *)
Theorem save_keeps_others : forall name filters st other,
  plain st -> other <> name ->
  load other (save name filters st) = load other st.
Proof.
  intros name filters st other Pl N.
  rewrite !load_get. unfold get, save.
  rewrite getAll_store_own.
  - now rewrite getOwn_set_other.
  - apply set_NoDup, getAll_NoDup.
  - apply set_no_proto, getAll_no_proto.
  - rewrite getOwn_set_other by assumption. intro E.
    apply getOwn_None. intro I. apply getOwn_None in E. apply E.
    apply getAll_has_defaults; [| exact I]. intros ->. exact Pl.
Qed.

Lemma save_keeps_others_witness :
  let mine := {| search := "arsenal"; division := "E0";
                 dateFrom := EmptyString; dateTo := EmptyString |} in
  load "High Draw Probability" (save "derbies" mine NoItem)
  = load "High Draw Probability" NoItem.
Proof.
  intro mine.
  refine (save_keeps_others "derbies" mine NoItem "High Draw Probability" I _).
  discriminate.
Defined.

(** X15: deleting a preset leaves what [load] returns for every other
    name as it was, on a store that parses and holds no [__proto__]
    entry. *)
Theorem delete_keeps_others : forall name st other,
  plain st -> other <> name ->
  load other (delete name st) = load other st.
Proof.
  intros name st other Pl N.
  rewrite !load_get. unfold get, delete.
  rewrite getAll_store_own.
  - now rewrite getOwn_delete_other.
  - apply delete_NoDup, getAll_NoDup.
  - destruct (getOwn (JS.delete (getAll st) name) "__proto__") eqn:E; trivial.
    apply getOwn_In in E.
    assert (I : In "__proto__" (ownKeys (JS.delete (getAll st) name)))
      by (change "__proto__" with (fst ("__proto__", j)); now apply in_map).
    apply delete_incl in I. now apply getOwn_None in I; [| apply getAll_no_proto].
  - rewrite getOwn_delete_other by assumption. intro E.
    apply getOwn_None. intro I. apply getOwn_None in E. apply E.
    apply getAll_has_defaults; [| exact I]. intros ->. exact Pl.
Qed.

Lemma delete_keeps_others_witness :
  let mine := {| search := "arsenal"; division := "E0";
                 dateFrom := EmptyString; dateTo := EmptyString |} in
  let st := save "derbies" mine NoItem in
  load "derbies" (delete "High Draw Probability" st) = load "derbies" st.
Proof.
  intros mine st.
  refine (delete_keeps_others "High Draw Probability" st "derbies" _ _).
  - cbn. intuition discriminate.
  - discriminate.
Defined.

Lemma compareUnits_antisym : forall a b,
  compareUnits b a = CompOpp (compareUnits a b).
Proof.
  induction a as [|x a IH]; intros [|y b]; cbn; trivial.
  rewrite (N.compare_antisym x y).
  destruct (x ?= y)%N; cbn; auto.
Qed.

Lemma compareUnits_trans : forall a b c,
  compareUnits a b <> Gt -> compareUnits b c <> Gt -> compareUnits a c <> Gt.
Proof.
  induction a as [|x a IH]; intros [|y b] [|z c]; cbn; try congruence.
  destruct (N.compare_spec x y) as [-> | L1 | G1]; [| | congruence].
  - destruct (N.compare_spec y z) as [-> | L2 | G2];
      [apply IH | congruence | congruence].
  - intros _.
    destruct (N.compare_spec y z) as [-> | L2 | G2]; [| | congruence].
    + intros _. apply N.compare_lt_iff in L1. rewrite L1. discriminate.
    + intros _. assert (L : (x < z)%N) by (now apply N.lt_trans with y).
      apply N.compare_lt_iff in L. rewrite L. discriminate.
Qed.

Lemma compareCodeUnits_le a b : (compareCodeUnits a b <= 0)%Z <-> notAfter a b.
Proof.
  unfold compareCodeUnits, notAfter.
  destruct (compareUnits (codeUnits a) (codeUnits b)); split; intro;
    try lia; congruence.
Qed.

Lemma notAfter_total a b : notAfter a b \/ notAfter b a.
Proof.
  unfold notAfter. rewrite (compareUnits_antisym (codeUnits a) (codeUnits b)).
  destruct (compareUnits (codeUnits a) (codeUnits b)); cbn;
    [left | left | right]; discriminate.
Qed.

Lemma getNames_In st name :
  In name (getNames st) <-> In name (ownKeys (getAll st)).
Proof.
  unfold getNames. rewrite sort_In. unfold keys.
  fold (ownKeys (entries (getAll st))). apply entries_keys.
Qed.

(** X16: [getNames] lists the names of the merged presets, each once, in
    ascending order of their UTF-16 code units: no name comes before one
    whose code units are smaller. *)
Theorem getNames_sorted : forall st,
  StronglySorted notAfter (getNames st)
  /\ NoDup (getNames st)
  /\ forall name, In name (getNames st) <-> In name (ownKeys (getAll st)).
Proof.
  intro st. split; [| split; [| intro; apply getNames_In]].
  - unfold getNames.
    apply StronglySorted_mono with (R := fun a b => (compareCodeUnits a b <= 0)%Z).
    + intros a b. apply compareCodeUnits_le.
    + apply (sort_sorted compareCodeUnits).
      * intros a b. rewrite !compareCodeUnits_le. apply notAfter_total.
      * intros a b c. rewrite !compareCodeUnits_le. apply compareUnits_trans.
  - unfold getNames. eapply Permutation_NoDup; [symmetry; apply sort_perm|].
    unfold keys. apply (entries_NoDup (getAll st)), getAll_NoDup.
Qed.

(** The order is that of the code units, not of the code points: the two
    surrogates of U+1F600 come before U+FF5E. *)
Example codeUnits_order :
  codeUnits Samples.grinning = [55357; 56832]%N
  /\ codeUnits Samples.fullwidthTilde = [65374]%N
  /\ sort compareCodeUnits [Samples.fullwidthTilde; "b"; Samples.grinning; "a"]
     = ["a"; "b"; Samples.grinning; Samples.fullwidthTilde].
Proof. vm_compute. repeat split. Qed.

(** X17: a preset saved under any name but [__proto__] is listed by
    [getNames], whatever the store held, even text that does not
    parse. *)
Theorem save_lists : forall name filters st,
  name <> "__proto__" -> In name (getNames (save name filters st)).
Proof.
  intros name filters st N. apply getNames_In.
  unfold save. destruct (getOwn (getAll (store (set (getAll st) name (copy filters)))) name) eqn:E.
  - apply getOwn_In in E. change name with (fst (name, j)). now apply in_map.
  - exfalso. rewrite getAll_store in E.
    rewrite (getOwn_assign_written _ _ name (copy filters)) in E; try discriminate; trivial.
    + apply entries_NoDup, entries_NoDup, set_NoDup, getAll_NoDup.
    + apply entries_In, entries_In, getOwn_In. now apply getOwn_set_same.
Qed.

Lemma save_lists_witness :
  In "derbies" (getNames (save "derbies"
                            {| search := "arsenal"; division := "E0";
                               dateFrom := EmptyString; dateTo := EmptyString |}
                            Unparsable)).
Proof.
  refine (save_lists "derbies" _ Unparsable _). discriminate.
Defined.

(** X18: as long as the stored text parses (or nothing is stored), every
    built-in preset is listed; when it does not parse, [getAll] falls
    back to the empty object: no name is listed, the built-in ones
    included, and [load] returns [null] for every name that is no
    member of [Object.prototype]. *)
Theorem defaults_listed : forall st,
  (st <> Unparsable ->
   forall name, In name (ownKeys getDefaultPresets) -> In name (getNames st))
  /\ (st = Unparsable ->
      getNames st = []
      /\ forall name, inherited name = false -> load name st = Null).
Proof.
  intro st. split.
  - intros N name I. apply getNames_In. now apply getAll_has_defaults.
  - intros ->. split; [reflexivity|]. intro name.
    intro I. unfold load, get. cbn [getAll loadFromStorage bind getOwn].
    now rewrite I.
Qed.

Lemma save_load_witness :
  load "derbies"
       (save "derbies" {| search := "arsenal"; division := "E0";
                          dateFrom := EmptyString; dateTo := EmptyString |}
             Unparsable)
  = Value (copy {| search := "arsenal"; division := "E0";
                   dateFrom := EmptyString; dateTo := EmptyString |}).
Proof.
  apply (save_load "derbies"). discriminate.
Defined.

End PresetStoreFacts.

(* ------------------------------------------------------------------ *)
(** * The analysis page's filters and charts *)
(* ------------------------------------------------------------------ *)

Module AnalysisPageFacts.
Import JS Analysis Samples AnalysisPage JSFacts ObjectFacts AggregatorFacts.
Local Open Scope string_scope.

(** ** The filters *)

(** X20: on a match with final score [h]-[a] and a non-empty result
    suggestion, the forecast check is true iff the suggestion names the
    outcome that came about ([1] with a home win, [X] with a draw, [2]
    with an away win), and false iff it names none that did. *)
Theorem checkIsForecastCorrect_outcome : forall m s h a,
  result_suggestion m = Some s -> s <> EmptyString ->
  home_score m = ScoreGoals h -> away_score m = ScoreGoals a ->
  (checkIsForecastCorrect m = Some true <-> outcomeHolds s h a)
  /\ (checkIsForecastCorrect m = Some false <-> ~ outcomeHolds s h a).
Proof.
  intros m s h a E N Hh Ha.
  unfold checkIsForecastCorrect, isMatchCompleted, outcomeHolds.
  rewrite E, Hh, Ha. cbn.
  unfold nonEmpty. apply String.eqb_neq in N. rewrite N. cbn.
  destruct (includes s "1"), (includes s "X"), (includes s "2"); cbn;
    repeat AnalysisFacts.decide_check; cbn;
    unfold Qle, Qlt, Qeq, inject_Z in *; cbn in *;
    (split; split; intro; try discriminate; try reflexivity;
     try (intuition (try discriminate; lia))).
Qed.

Lemma checkIsForecastCorrect_outcome_witness :
  let m := {| country := "Austria"; result_suggestion := Some "1X";
              goals_suggestion := None;
              home_score := ScoreGoals 1; away_score := ScoreGoals 1 |} in
  (checkIsForecastCorrect m = Some true <-> outcomeHolds "1X" 1 1)
  /\ (checkIsForecastCorrect m = Some false <-> ~ outcomeHolds "1X" 1 1).
Proof.
  intro m.
  refine (checkIsForecastCorrect_outcome m "1X" 1%Z 1%Z eq_refl _ eq_refl eq_refl).
  discriminate.
Defined.

(** X21: the forecast-type filter: [forecast] shows what [combo] or
    [only-forecast] shows, [goals] what [combo] or [only-goals] shows; a
    match with no suggestion passes none of the five types, and a match
    with one passes exactly one of [combo], [only-forecast],
    [only-goals]. *)
Theorem filterByForecastType_partition : forall m,
  let f := filterByForecastType m in
  (f "forecast" = f "combo" || f "only-forecast")
  /\ (f "goals" = f "combo" || f "only-goals")
  /\ (falsy (result_suggestion m) && falsy (goals_suggestion m) = true ->
      f "forecast" = false /\ f "goals" = false /\ f "combo" = false
      /\ f "only-forecast" = false /\ f "only-goals" = false)
  /\ (falsy (result_suggestion m) && falsy (goals_suggestion m) = false ->
      (f "combo" = true /\ f "only-forecast" = false /\ f "only-goals" = false)
      \/ (f "combo" = false /\ f "only-forecast" = true /\ f "only-goals" = false)
      \/ (f "combo" = false /\ f "only-forecast" = false /\ f "only-goals" = true)).
Proof.
  intro m. cbv zeta. unfold filterByForecastType. cbn.
  destruct (falsy (result_suggestion m)), (falsy (goals_suggestion m)); cbn;
    intuition discriminate.
Qed.

(** X22: the result-type filter on a completed match: where the check
    is defined, the [correct-] type shows the match iff the check is
    true and the [incorrect-] type iff it is false; where it is
    undefined, both types show the match. *)
Theorem filterByResultType_pairs : forall callInherited m,
  isMatchCompleted m = true ->
  let f := filterByResultType callInherited m in
  let pair (check : Match -> option bool) (yes no : string) :=
    match check m with
    | Some b => f yes = Normal b /\ f no = Normal (negb b)
    | None => f yes = Normal true /\ f no = Normal true
    end in
  pair checkIsForecastCorrect "correct-forecasts" "incorrect-forecasts"
  /\ pair checkIsGoalsCorrect "correct-goals" "incorrect-goals"
  /\ pair checkIsBothCorrect "correct-combos" "incorrect-combos".
Proof.
  intros callInherited m C. cbv zeta. unfold filterByResultType. rewrite C. cbn.
  unfold isNot.
  destruct (checkIsForecastCorrect m), (checkIsGoalsCorrect m), (checkIsBothCorrect m);
    repeat split.
Qed.

Lemma filterByResultType_pairs_witness :
  let m := {| country := "Austria"; result_suggestion := None;
              goals_suggestion := Some "Over 2.5";
              home_score := ScoreGoals 1; away_score := ScoreGoals 1 |} in
  let f := filterByResultType (fun _ _ => Throw "TypeError") m in
  (f "correct-forecasts" = Normal true /\ f "incorrect-forecasts" = Normal true)
  /\ (f "correct-goals" = Normal false /\ f "incorrect-goals" = Normal true)
  /\ (f "correct-combos" = Normal true /\ f "incorrect-combos" = Normal true).
Proof.
  intros m f.
  exact (filterByResultType_pairs (fun _ _ => Throw "TypeError") m eq_refl).
Defined.

(** ** The counters of a country *)

Lemma proto_inherited : inherited "__proto__" = true.
Proof. reflexivity. Qed.

Lemma sumTotals_app (o o' : props Stat) : sumTotals (o ++ o')%list = (sumTotals o + sumTotals o')%nat.
Proof. unfold sumTotals. induction o as [|e o IH]; cbn; [reflexivity | rewrite IH; lia]. Qed.

Lemma sumTotals_replace o k s s' :
  NoDup (ownKeys o) -> getOwn o k = Some s ->
  (sumTotals (replace o k s') + total s = sumTotals o + total s')%nat.
Proof.
  induction o as [|[k1 s1] o IH]; cbn [getOwn replace]; [discriminate|].
  intros D E. inversion D as [|? ? N D']; subst.
  destruct (String.eqb_spec k k1) as [-> | Nk]; cbn [sumTotals fold_right snd].
  - injection E as ->. fold (sumTotals o). lia.
  - specialize (IH D' E). fold (sumTotals o). fold (sumTotals (replace o k s')). lia.
Qed.

Lemma Forall_replace {P : string * Stat -> Prop} o k s' :
  Forall P o -> (forall k1, P (k1, s')) -> Forall P (replace o k s').
Proof.
  intros F Q. induction F as [|[k1 s1] o Pe F IH]; cbn; [constructor|].
  destruct (String.eqb k k1); constructor; auto.
Qed.

Lemma sumTotals_perm o o' : Permutation o o' -> sumTotals o = sumTotals o'.
Proof. unfold sumTotals. induction 1; cbn; lia. Qed.

(** What one turn does to a country that is no member of
    [Object.prototype]. *)
Lemma bump_set_new stats c ok :
  getOwn stats c = None -> inherited c = false ->
  bump (set stats c {| correct := 0; total := 0 |}) c ok
  = (stats ++ [(c, {| correct := if ok then 1 else 0; total := 1 |})])%list.
Proof.
  intros E I.
  assert (N : c <> "__proto__") by (intros ->; discriminate I).
  unfold bump. rewrite getOwn_set_same by assumption.
  unfold set, hasOwn. rewrite E. apply String.eqb_neq in N. rewrite N.
  clear N. induction stats as [|[k1 s1] stats IH]; cbn.
  - now rewrite String.eqb_refl.
  - cbn in E. destruct (String.eqb c k1); [discriminate|].
    cbn. f_equal. now apply IH.
Qed.

Lemma not_own_inherited (stats : props Stat) c :
  Forall (fun e => inherited (fst e) = false) stats -> inherited c = true ->
  getOwn stats c = None.
Proof.
  intros F I. apply getOwn_None. unfold ownKeys. rewrite in_map_iff.
  intros (e & <- & In'). rewrite Forall_forall in F. rewrite (F e In') in I.
  discriminate.
Qed.

Lemma fst_replace (o : props Stat) k s' (P : string -> Prop) :
  Forall (fun e => P (fst e)) o -> Forall (fun e => P (fst e)) (replace o k s').
Proof.
  intro F. induction F as [|[k1 s1] o Pe F IH]; cbn; [constructor|].
  destruct (String.eqb k k1); constructor; auto.
Qed.

Lemma snd_replace (o : props Stat) k s' (P : Stat -> Prop) :
  Forall (fun e => P (snd e)) o -> P s' -> Forall (fun e => P (snd e)) (replace o k s').
Proof.
  intros F Q. induction F as [|[k1 s1] o Pe F IH]; cbn; [constructor|].
  destruct (String.eqb k k1); constructor; auto.
Qed.

Lemma tallyCountry_invariant checkFn stats n m :
  invariant stats n ->
  invariant (tallyCountry checkFn stats m)
            (n + if inherited (country m) then 0 else 1).
Proof.
  intros (D & Sd & K & T). unfold tallyCountry, get.
  destruct (inherited (country m)) eqn:I.
  - rewrite (not_own_inherited _ _ K I). repeat split; trivial. lia.
  - destruct (getOwn stats (country m)) as [s|] eqn:E.
    + unfold bump. rewrite E.
      assert (Ss : sound s).
      { pose proof (getOwn_In _ _ _ E) as I'. rewrite Forall_forall in Sd. exact (Sd _ I'). }
      split; [now rewrite ownKeys_replace|].
      split; [|split].
      * apply (snd_replace _ _ _ sound); trivial.
        destruct Ss as [L1 L2]. unfold sound. cbn.
        destruct (isTrue (checkFn m)); lia.
      * now apply (fst_replace _ _ _ (fun k => inherited k = false)).
      * pose proof (sumTotals_replace stats (country m) s
          {| correct := if isTrue (checkFn m) then S (correct s) else correct s;
             total := S (total s) |} D E) as Q.
        cbn in Q. lia.
    + rewrite bump_set_new by assumption.
      split; [|split; [|split]].
      * unfold ownKeys. rewrite map_app. cbn.
        apply NoDup_app; [exact D | repeat constructor; auto | ].
        intros k Ik [<-|[]]. apply getOwn_None in E. contradiction.
      * apply Forall_app. split; trivial. constructor; [|constructor].
        unfold sound. cbn. destruct (isTrue (checkFn m)); lia.
      * apply Forall_app. split; trivial. now repeat constructor.
      * rewrite sumTotals_app. cbn. lia.
Qed.

Lemma fold_tallyCountry_invariant checkFn l : forall stats n,
  invariant stats n ->
  invariant (fold_left (tallyCountry checkFn) l stats)
            (n + List.length (filter (fun m => negb (inherited (country m))) l)).
Proof.
  induction l as [|m l IH]; intros stats n Inv; cbn [fold_left filter].
  - cbn. now rewrite Nat.add_0_r.
  - apply (tallyCountry_invariant checkFn _ _ m) in Inv.
    apply IH in Inv. destruct (inherited (country m)); cbn [negb List.length] in *.
    + now rewrite Nat.add_0_r in Inv.
    + now rewrite <- Nat.add_assoc in Inv.
Qed.

Lemma countryStats_invariant data checkFn :
  invariant (countryStats data checkFn)
            (List.length (filter (counted checkFn) data)).
Proof.
  unfold countryStats.
  pose proof (fold_tallyCountry_invariant checkFn
    (filter (fun m => isMatchCompleted m
                      && match checkFn m with Some _ => true | None => false end) data)
    [] 0) as Q.
  rewrite filter_filter in Q. cbn [Nat.add] in Q.
  erewrite filter_ext; [apply Q|].
  - repeat split; constructor.
  - intro m. unfold counted. cbn. now rewrite andb_comm.
Qed.

Lemma countOf_snoc p c ms m :
  countOf p c (ms ++ [m])
  = (countOf p c ms + if String.eqb (country m) c && p m then 1 else 0)%nat.
Proof.
  unfold countOf. rewrite filter_app, length_app. cbn.
  now destruct (String.eqb (country m) c && p m).
Qed.

Lemma countOf_le p c ms : (countOf p c ms <= countOf (fun _ => true) c ms)%nat.
Proof.
  unfold countOf. induction ms as [|m ms IH]; cbn; [lia|].
  destruct (String.eqb (country m) c); cbn; [|exact IH].
  destruct (p m); cbn; lia.
Qed.

Lemma countOf_pos p c ms :
  (1 <= countOf p c ms)%nat <-> exists m, In m ms /\ country m = c /\ p m = true.
Proof.
  unfold countOf. split.
  - intro L. destruct (filter _ ms) as [|m l] eqn:E; [cbn in L; lia|].
    assert (I : In m (filter (fun m => String.eqb (country m) c && p m) ms))
      by (rewrite E; now left).
    apply filter_In in I. destruct I as [I B]. apply andb_prop in B.
    destruct B as [B1 B2]. apply String.eqb_eq in B1. eauto.
  - intros (m & I & <- & P).
    assert (J : In m (filter (fun m' => String.eqb (country m') (country m) && p m') ms)).
    { apply filter_In. split; trivial. now rewrite String.eqb_refl, P. }
    destruct (filter _ ms); [destruct J | cbn; lia].
Qed.

Lemma getOwn_snoc {V} (o : props V) k v k' :
  getOwn (o ++ [(k, v)])%list k'
  = match getOwn o k' with
    | Some x => Some x
    | None => if String.eqb k' k then Some v else None
    end.
Proof. rewrite getOwn_app. cbn. reflexivity. Qed.

(** One turn of [getAccuracyByCountry] keeps the counters exact. *)
Lemma tallyCountry_tallied checkFn stats pre m :
  NoDup (ownKeys stats) ->
  (forall c, getOwn stats c = tallied checkFn pre c) ->
  forall c, getOwn (tallyCountry checkFn stats m) c = tallied checkFn (pre ++ [m]) c.
Proof.
  intros D H c. unfold tallyCountry, get.
  destruct (inherited (country m)) eqn:I.
  - assert (E : getOwn stats (country m) = None)
      by (rewrite H; unfold tallied; now rewrite I).
    rewrite E, H. unfold tallied. destruct (inherited c) eqn:Ic; trivial.
    rewrite !countOf_snoc.
    destruct (String.eqb_spec (country m) c) as [Q|Q]; [congruence|].
    cbn. now rewrite !Nat.add_0_r.
  - destruct (getOwn stats (country m)) as [s|] eqn:E.
    + unfold bump. rewrite E.
      destruct (String.eqb_spec (country m) c) as [<-|Q].
      * rewrite getOwn_replace_same by congruence.
        rewrite H in E. unfold tallied in *. rewrite I in *.
        rewrite !countOf_snoc, String.eqb_refl. cbn [andb].
        destruct (countOf (fun _ => true) (country m) pre) eqn:T; [discriminate|].
        injection E as <-. cbn [correct total].
        replace (S n + 1)%nat with (S (S n)) by lia.
        f_equal. destruct (isTrue (checkFn m)); f_equal; lia.
      * rewrite getOwn_replace_other by congruence.
        rewrite H. unfold tallied. destruct (inherited c); trivial.
        rewrite !countOf_snoc.
        apply String.eqb_neq in Q. rewrite Q. cbn. now rewrite !Nat.add_0_r.
    + rewrite bump_set_new by assumption. rewrite getOwn_snoc.
      destruct (String.eqb_spec (country m) c) as [<-|Q].
      * rewrite E, String.eqb_refl.
        rewrite H in E. unfold tallied in *. rewrite I in *.
        rewrite !countOf_snoc, String.eqb_refl. cbn [andb].
        destruct (countOf (fun _ => true) (country m) pre) eqn:T; [|discriminate].
        cbn [Nat.add].
        assert (Z0 : countOf (fun m0 => isTrue (checkFn m0)) (country m) pre = 0%nat).
        { pose proof (countOf_le (fun m0 => isTrue (checkFn m0)) (country m) pre). lia. }
        rewrite Z0. now destruct (isTrue (checkFn m)).
      * rewrite H. unfold tallied. destruct (inherited c) eqn:Ic.
        -- destruct (String.eqb_spec c (country m)); [congruence | reflexivity].
        -- rewrite !countOf_snoc.
           pose proof Q as Q'. apply String.eqb_neq in Q'. rewrite Q'. cbn [andb].
           rewrite !Nat.add_0_r.
           destruct (countOf (fun _ => true) c pre); trivial.
           destruct (String.eqb_spec c (country m)); [congruence | reflexivity].
Qed.

Lemma tallyCountry_NoDup checkFn stats m :
  NoDup (ownKeys stats) -> NoDup (ownKeys (tallyCountry checkFn stats m)).
Proof.
  intro D. unfold tallyCountry, get.
  destruct (getOwn stats (country m)) as [s|] eqn:E.
  - unfold bump. rewrite E. now rewrite ownKeys_replace.
  - destruct (inherited (country m)) eqn:I; trivial.
    rewrite bump_set_new by assumption.
    unfold ownKeys. rewrite map_app. cbn.
    apply NoDup_app; [exact D | repeat constructor; auto | ].
    intros k Ik [<-|[]]. apply getOwn_None in E. contradiction.
Qed.

Lemma fold_tallyCountry_tallied checkFn l : forall stats pre,
  NoDup (ownKeys stats) ->
  (forall c, getOwn stats c = tallied checkFn pre c) ->
  NoDup (ownKeys (fold_left (tallyCountry checkFn) l stats))
  /\ forall c, getOwn (fold_left (tallyCountry checkFn) l stats) c
               = tallied checkFn (pre ++ l) c.
Proof.
  induction l as [|m l IH]; intros stats pre D H; cbn [fold_left].
  - rewrite app_nil_r. now split.
  - replace (pre ++ m :: l)%list with ((pre ++ [m]) ++ l)%list
      by (now rewrite <- app_assoc).
    apply IH.
    + now apply tallyCountry_NoDup.
    + now apply tallyCountry_tallied.
Qed.

Lemma countryStats_tallied data checkFn :
  let completed := filter (fun m => isMatchCompleted m && isDefined (checkFn m)) data in
  NoDup (ownKeys (countryStats data checkFn))
  /\ forall c, getOwn (countryStats data checkFn) c = tallied checkFn completed c.
Proof.
  intro completed. unfold countryStats.
  apply (fold_tallyCountry_tallied checkFn completed [] []).
  - constructor.
  - intro c. unfold tallied, countOf. cbn [app filter List.length getOwn].
    now destruct (inherited c).
Qed.

(** ** Accuracy by country *)

Lemma countOf_filter p q c ms :
  countOf p c (filter q ms) = countOf (fun m => q m && p m) c ms.
Proof.
  unfold countOf. rewrite filter_filter. f_equal. apply filter_ext.
  intro m. destruct (q m), (String.eqb (country m) c), (p m); reflexivity.
Qed.

Lemma countOf_ext p q c ms :
  (forall m, country m = c -> p m = q m) -> countOf p c ms = countOf q c ms.
Proof.
  intro H. unfold countOf. f_equal. apply filter_ext. intro m.
  destruct (String.eqb_spec (country m) c) as [E|E]; cbn; auto.
Qed.

(** The own properties of [stats] when the [forEach] is over. *)
Lemma countryStats_own data checkFn c s :
  In (c, s) (countryStats data checkFn) <->
  inherited c = false
  /\ (1 <= countOf (counted checkFn) c data)%nat
  /\ s = {| correct := countOf (fun m => counted checkFn m && isTrue (checkFn m)) c data;
            total := countOf (counted checkFn) c data |}.
Proof.
  destruct (countryStats_tallied data checkFn) as [D H].
  assert (T : forall p, inherited c = false ->
    countOf p c (filter (fun m => isMatchCompleted m && isDefined (checkFn m)) data)
    = countOf (fun m => counted checkFn m && p m) c data).
  { intros p I. rewrite countOf_filter. apply countOf_ext. intros m <-.
    unfold counted, isDefined. rewrite I. cbn. now rewrite andb_true_r. }
  split.
  - intro I. apply (In_getOwn _ _ _ D) in I. rewrite H in I. unfold tallied in I.
    destruct (inherited c) eqn:Ic; [discriminate|].
    rewrite !T in I by reflexivity.
    rewrite (countOf_ext (fun m => counted checkFn m && true) (counted checkFn)) in I
      by (intros; apply andb_true_r).
    destruct (countOf (counted checkFn) c data) eqn:E; [discriminate|].
    injection I as <-. repeat split; trivial. lia.
  - intros (Ic & L & ->). apply getOwn_In. rewrite H. unfold tallied. rewrite Ic.
    rewrite !T by assumption.
    rewrite (countOf_ext (fun m => counted checkFn m && true) (counted checkFn))
      by (intros; apply andb_true_r).
    destruct (countOf (counted checkFn) c data); [lia | reflexivity].
Qed.

Lemma statOf_label data checkFn c :
  In c (keys (countryStats data checkFn)) ->
  statOf (countryStats data checkFn) c
  = {| correct := countOf (fun m => counted checkFn m && isTrue (checkFn m)) c data;
       total := countOf (counted checkFn) c data |}.
Proof.
  intro I. unfold keys in I. apply in_map_iff in I. destruct I as ([c' s] & <- & I).
  apply (proj1 (entries_In _ _)) in I. cbn [fst].
  destruct (countryStats_tallied data checkFn) as [D _].
  unfold statOf. rewrite (In_getOwn _ _ _ D I).
  apply countryStats_own in I. tauto.
Qed.

(** X23: the bars of [getAccuracyByCountry]: one label for each country
    that has a counted match (completed, with a defined check, the
    country no member of [Object.prototype]), no label twice; the total of
    a label is the number of counted matches of its country, and its
    percentage is the rounded share of those on which the check is
    true. *)
Theorem getAccuracyByCountry_bars data checkFn :
  let bars := getAccuracyByCountry data checkFn in
  NoDup (labels bars)
  /\ (forall c, In c (labels bars) <->
                exists m, In m data /\ country m = c /\ counted checkFn m = true)
  /\ totals bars = map (fun c => countOf (counted checkFn) c data) (labels bars)
  /\ AnalysisPage.data bars
     = map (fun c => percentage
              {| correct := countOf (fun m => counted checkFn m && isTrue (checkFn m)) c data;
                 total := countOf (counted checkFn) c data |}) (labels bars).
Proof.
  cbn. split; [|split; [|split]].
  - apply (entries_NoDup (countryStats data checkFn)).
    apply countryStats_tallied.
  - intro c. unfold keys. rewrite <- (countOf_pos (counted checkFn) c data).
    fold (ownKeys (entries (countryStats data checkFn))). rewrite entries_keys.
    unfold ownKeys. rewrite in_map_iff. split.
    + intros ([c' s] & <- & I). apply countryStats_own in I. tauto.
    + intro L. eexists (c, _). split; [reflexivity|].
      apply countryStats_own. repeat split; trivial.
      apply countOf_pos in L. destruct L as (m & _ & <- & C).
      unfold counted in C. apply andb_prop in C. destruct C as [_ C].
      now apply negb_true_iff in C.
  - apply map_ext_in. intros c I. now rewrite statOf_label.
  - apply map_ext_in. intros c I. now rewrite statOf_label.
Qed.

(** X24: every counted match is in the total of exactly one bar: the
    totals add up to the number of counted matches. *)
Theorem getAccuracyByCountry_totals data checkFn :
  list_sum (totals (getAccuracyByCountry data checkFn))
  = List.length (filter (counted checkFn) data).
Proof.
  destruct (countryStats_invariant data checkFn) as (D & _ & _ & <-).
  cbn [getAccuracyByCountry totals].
  rewrite (map_ext_in _ (fun c => match getOwn (entries (countryStats data checkFn)) c with
                               | Some s => total s | None => 0%nat end)).
  2:{ intros c I. unfold statOf. unfold keys in I. apply in_map_iff in I.
      destruct I as ([c' s] & <- & I). cbn [fst].
      rewrite (In_getOwn _ _ _ (entries_NoDup _ D) I).
      apply (proj1 (entries_In _ _)) in I. now rewrite (In_getOwn _ _ _ D I). }
  rewrite <- (sumTotals_perm _ _ (entries_perm (countryStats data checkFn))).
  pose proof (entries_NoDup _ D) as D'. unfold keys.
  generalize dependent (entries (countryStats data checkFn)).
  intros o Do. clear - Do. induction o as [|[k s] o IH]; [reflexivity|].
  cbn [map fst list_sum sumTotals fold_right snd getOwn]. rewrite String.eqb_refl.
  inversion Do as [|? ? N Do']; subst. f_equal.
  fold (sumTotals o). rewrite <- (IH Do'). unfold list_sum. f_equal.
  apply map_ext_in. intros c I.
  destruct (String.eqb_spec c k) as [->|]; [contradiction | reflexivity].
Qed.

(** ** The best league, match by match *)

Lemma set_new {V} (o : props V) c v :
  getOwn o c = None -> inherited c = false -> set o c v = (o ++ [(c, v)])%list.
Proof.
  intros E I. unfold set, hasOwn. rewrite E.
  destruct (String.eqb_spec c "__proto__") as [->|]; [discriminate I | reflexivity].
Qed.

Lemma replace_snoc {V} (o : props V) c v v' :
  getOwn o c = None -> replace (o ++ [(c, v)])%list c v' = (o ++ [(c, v')])%list.
Proof.
  induction o as [|[k1 s1] o IH]; cbn.
  - now rewrite String.eqb_refl.
  - destruct (String.eqb c k1); [discriminate|]. intro E. now rewrite IH.
Qed.

(** One turn of [getBestLeague] keeps the counters exact. *)
Lemma tally_collected stats pre m :
  (forall c, getOwn stats c = collected pre c) ->
  forall c, getOwn (tally stats m) c = collected (pre ++ [m]) c.
Proof.
  intros H c. unfold tally, get.
  destruct (inherited (country m)) eqn:I.
  - assert (E : getOwn stats (country m) = None)
      by (rewrite H; unfold collected; now rewrite I).
    rewrite E, H. unfold collected. destruct (inherited c) eqn:Ic; trivial.
    rewrite !countOf_snoc.
    destruct (String.eqb_spec (country m) c) as [Q|Q]; [congruence|].
    cbn. now rewrite !Nat.add_0_r.
  - destruct (getOwn stats (country m)) as [s|] eqn:E.
    + unfold count. rewrite E.
      destruct (String.eqb_spec (country m) c) as [<-|Q].
      * rewrite H in E. unfold collected in *. rewrite I in *.
        rewrite !countOf_snoc, String.eqb_refl. cbn [andb].
        destruct (countOf (fun _ => true) (country m) pre) eqn:T; [discriminate|].
        injection E as <-. cbn [Nat.add].
        destruct (checkIsBothCorrect m) as [ok|] eqn:B.
        -- rewrite getOwn_replace_same
             by (rewrite H; unfold collected; rewrite I, T; discriminate).
           cbn [correct total isTrue isDefined].
           f_equal. destruct ok; f_equal; lia.
        -- rewrite H. unfold collected. rewrite I, T. cbn [isTrue isDefined].
           now rewrite !Nat.add_0_r.
      * assert (G : getOwn (match checkIsBothCorrect m with
                            | Some ok => replace stats (country m)
                                {| correct := if ok then S (correct s) else correct s;
                                   total := S (total s) |}
                            | None => stats
                            end) c = getOwn stats c).
        { destruct (checkIsBothCorrect m); trivial.
          apply getOwn_replace_other. congruence. }
        rewrite G, H. unfold collected. destruct (inherited c); trivial.
        rewrite !countOf_snoc.
        apply String.eqb_neq in Q. rewrite Q. cbn. now rewrite !Nat.add_0_r.
    + rewrite set_new by assumption.
      assert (G : count (stats ++ [(country m, {| correct := 0; total := 0 |})])%list
                    (country m) (checkIsBothCorrect m)
                  = (stats ++ [(country m,
                       {| correct := if isTrue (checkIsBothCorrect m) then 1 else 0;
                          total := if isDefined (checkIsBothCorrect m) then 1 else 0 |})])%list).
      { unfold count. rewrite getOwn_snoc, E, String.eqb_refl.
        destruct (checkIsBothCorrect m) as [ok|]; cbn [isTrue isDefined]; trivial.
        now rewrite replace_snoc. }
      rewrite G, getOwn_snoc.
      destruct (String.eqb_spec (country m) c) as [<-|Q].
      * rewrite E, String.eqb_refl.
        rewrite H in E. unfold collected in *. rewrite I in *.
        rewrite !countOf_snoc, String.eqb_refl. cbn [andb].
        destruct (countOf (fun _ => true) (country m) pre) eqn:T; [|discriminate].
        cbn [Nat.add].
        pose proof (countOf_le (fun m0 => isTrue (checkIsBothCorrect m0)) (country m) pre).
        pose proof (countOf_le (fun m0 => isDefined (checkIsBothCorrect m0)) (country m) pre).
        replace (countOf (fun m0 => isTrue (checkIsBothCorrect m0)) (country m) pre)
          with 0%nat by lia.
        replace (countOf (fun m0 => isDefined (checkIsBothCorrect m0)) (country m) pre)
          with 0%nat by lia.
        reflexivity.
      * rewrite H. unfold collected. destruct (inherited c) eqn:Ic.
        -- destruct (String.eqb_spec c (country m)); [congruence | reflexivity].
        -- rewrite !countOf_snoc.
           pose proof Q as Q'. apply String.eqb_neq in Q'. rewrite Q'. cbn [andb].
           rewrite !Nat.add_0_r.
           destruct (countOf (fun _ => true) c pre); trivial.
           destruct (String.eqb_spec c (country m)); [congruence | reflexivity].
Qed.

Lemma tally_NoDup stats m :
  NoDup (ownKeys stats) -> NoDup (ownKeys (tally stats m)).
Proof.
  intro D. unfold tally, get.
  destruct (getOwn stats (country m)) as [s|] eqn:E.
  - unfold count. rewrite E. destruct (checkIsBothCorrect m); trivial.
    now rewrite ownKeys_replace.
  - destruct (inherited (country m)) eqn:I; trivial.
    rewrite set_new by assumption.
    assert (K : ownKeys (count (stats ++ [(country m, {| correct := 0; total := 0 |})])%list
                   (country m) (checkIsBothCorrect m))
                = (ownKeys stats ++ [country m])%list).
    { unfold count. rewrite getOwn_snoc, E, String.eqb_refl.
      destruct (checkIsBothCorrect m);
        rewrite ?ownKeys_replace; unfold ownKeys; now rewrite map_app. }
    rewrite K.
    apply NoDup_app; [exact D | repeat constructor; auto | ].
    intros k Ik [<-|[]]. apply getOwn_None in E. contradiction.
Qed.

Lemma fold_tally_collected l : forall stats pre,
  NoDup (ownKeys stats) ->
  (forall c, getOwn stats c = collected pre c) ->
  NoDup (ownKeys (fold_left tally l stats))
  /\ forall c, getOwn (fold_left tally l stats) c = collected (pre ++ l) c.
Proof.
  induction l as [|m l IH]; intros stats pre D H; cbn [fold_left].
  - rewrite app_nil_r. now split.
  - replace (pre ++ m :: l)%list with ((pre ++ [m]) ++ l)%list
      by (now rewrite <- app_assoc).
    apply IH.
    + now apply tally_NoDup.
    + now apply tally_collected.
Qed.

Lemma collect_collected matches :
  NoDup (ownKeys (collect matches))
  /\ forall c, getOwn (collect matches) c = collected matches c.
Proof.
  apply (fold_tally_collected matches [] []).
  - constructor.
  - intro c. unfold collected, countOf. cbn [app filter List.length getOwn].
    now destruct (inherited c).
Qed.

Lemma pos_of_nat n : (0 < n)%nat -> Z.pos (Pos.of_nat n) = Z.of_nat n.
Proof.
  destruct n as [|n]; [lia|]. intros _.
  rewrite <- Pos.of_nat_succ, Zpos_P_of_succ_nat. lia.
Qed.

Lemma ratio_pos s : (0 < ratio s)%Q <-> (0 < total s /\ 0 < correct s)%nat.
Proof.
  unfold ratio. destruct (total s) as [|t] eqn:T.
  - split; [intro L; exfalso; revert L; apply Qlt_irrefl | lia].
  - unfold Qlt. cbn [Qnum Qden]. rewrite Z.mul_1_r. cbn [Z.mul]. lia.
Qed.

Lemma ratio_le s1 s2 :
  (ratio s1 <= ratio s2)%Q -> (correct s1 <= total s1)%nat -> (0 < total s2)%nat ->
  (correct s1 * total s2 <= correct s2 * total s1)%nat.
Proof.
  intros L C T. unfold ratio in L.
  destruct (total s1) as [|t1] eqn:T1; [replace (correct s1) with 0%nat by lia; lia|].
  destruct (total s2) as [|t2] eqn:T2; [lia|].
  unfold Qle in L. cbn [Qnum Qden] in L.
  rewrite !pos_of_nat in L by lia. nia.
Qed.

Lemma collected_In matches c :
  inherited c = false -> (1 <= countOf (fun _ => true) c matches)%nat ->
  In (c, {| correct := hitsOf c matches; total := definedOf c matches |})
     (entries (collect matches)).
Proof.
  intros I L. apply entries_In. apply getOwn_In.
  rewrite (proj2 (collect_collected matches)). unfold collected. rewrite I.
  destruct (countOf (fun _ => true) c matches); [lia | reflexivity].
Qed.

Lemma In_collected matches c s :
  In (c, s) (entries (collect matches)) ->
  inherited c = false
  /\ s = {| correct := hitsOf c matches; total := definedOf c matches |}.
Proof.
  intro I. apply (proj1 (entries_In _ _)) in I.
  destruct (collect_collected matches) as [D H].
  apply (In_getOwn _ _ _ D) in I. rewrite H in I. unfold collected in I.
  destruct (inherited c); [discriminate|].
  destruct (countOf (fun _ => true) c matches); [discriminate|].
  injection I as <-. now split.
Qed.

(** X25: when some match has both suggestions right (its country no member
    of [Object.prototype]), [getBestLeague] names a country that has such
    a match, and no country has a greater share of them among its matches
    with a defined combined check. *)
Theorem getBestLeague_best matches m :
  In m matches -> checkIsBothCorrect m = Some true -> inherited (country m) = false ->
  let g := getBestLeague matches in
  inherited g = false
  /\ (exists m', In m' matches /\ country m' = g /\ checkIsBothCorrect m' = Some true)
  /\ forall c, inherited c = false ->
       (hitsOf c matches * definedOf g matches
        <= hitsOf g matches * definedOf c matches)%nat.
Proof.
  intros I B Ic g.
  assert (Hm : (1 <= hitsOf (country m) matches)%nat).
  { apply countOf_pos. exists m. rewrite B. auto. }
  assert (Dm : (1 <= definedOf (country m) matches)%nat).
  { apply countOf_pos. exists m. rewrite B. auto. }
  assert (Am : (1 <= countOf (fun _ => true) (country m) matches)%nat).
  { apply countOf_pos. exists m. auto. }
  pose proof (collected_In matches _ Ic Am) as Em.
  destruct (pick_first_maximal (entries (collect matches))
              {| league := EmptyString; acc := 0%Q |})
    as [[A P] | (pre & [g' s] & post & HE & P & L & Fpre & Fpost)].
  - exfalso. rewrite Forall_forall in A. specialize (A _ Em). cbn in A.
    assert (Q : (0 < ratio {| correct := hitsOf (country m) matches;
                              total := definedOf (country m) matches |})%Q)
      by (apply ratio_pos; cbn; lia).
    exact (Qlt_not_le _ _ Q A).
  - assert (G : g = g') by (unfold g, getBestLeague; now rewrite P).
    cbn [fst snd acc] in *.
    assert (Ig : In (g', s) (entries (collect matches)))
      by (rewrite HE; apply in_elt).
    destruct (In_collected _ _ _ Ig) as [Ih ->].
    apply ratio_pos in L. cbn [correct total] in L. destruct L as [L1 L2].
    rewrite G. split; [exact Ih | split].
    + apply countOf_pos in L2. destruct L2 as (m' & I' & C' & T').
      exists m'. repeat split; trivial.
      destruct (checkIsBothCorrect m') as [[|]|]; cbn in T'; congruence.
    + intros c Icc.
      destruct (countOf (fun _ => true) c matches) eqn:T.
      * pose proof (countOf_le (fun m0 => isTrue (checkIsBothCorrect m0)) c matches).
        assert (Z0 : hitsOf c matches = 0%nat) by (unfold hitsOf; lia).
        rewrite Z0. lia.
      * assert (Ec : In (c, {| correct := hitsOf c matches; total := definedOf c matches |})
                        (entries (collect matches)))
          by (apply collected_In; [assumption | lia]).
        assert (R : (ratio {| correct := hitsOf c matches; total := definedOf c matches |}
                     <= ratio {| correct := hitsOf g' matches;
                                 total := definedOf g' matches |})%Q).
        { rewrite HE in Ec. apply in_app_or in Ec.
          rewrite Forall_forall in Fpre, Fpost.
          destruct Ec as [Ec | [Ec | Ec]].
          - apply Qlt_le_weak. exact (Fpre _ Ec).
          - assert (Q : g' = c) by congruence. rewrite Q. apply Qle_refl.
          - exact (Fpost _ Ec). }
        apply ratio_le in R; cbn [correct total] in *; trivial.
        unfold hitsOf, definedOf, countOf.
        clear. induction matches as [|x l IH]; cbn; [lia|].
        destruct (String.eqb (country x) c); cbn; trivial.
        destruct (checkIsBothCorrect x) as [[|]|]; cbn; lia.
Qed.

Lemma getBestLeague_best_witness :
  getBestLeague [stale; fine] = "Belgium"
  /\ inherited (getBestLeague [stale; fine]) = false
  /\ (exists m', In m' [stale; fine] /\ country m' = getBestLeague [stale; fine]
                 /\ checkIsBothCorrect m' = Some true)
  /\ forall c, inherited c = false ->
       (hitsOf c [stale; fine] * definedOf (getBestLeague [stale; fine]) [stale; fine]
        <= hitsOf (getBestLeague [stale; fine]) [stale; fine]
           * definedOf c [stale; fine])%nat.
Proof.
  split; [reflexivity|].
  apply (getBestLeague_best [stale; fine] fine);
    [right; left; reflexivity | reflexivity | reflexivity].
Defined.

End AnalysisPageFacts.

(* ------------------------------------------------------------------ *)
(** * Percentages in binary64, against the exact rounding *)
(* ------------------------------------------------------------------ *)

Module RoundingFacts.
Import JS Analysis Rounding.

Lemma agreeUpTo_sound n correct count :
  agreeUpTo n = true -> (correct <= count)%nat -> (1 <= count <= n)%nat ->
  agrees correct count = true.
Proof.
  intros H L B. unfold agreeUpTo in H.
  rewrite forallb_forall in H. specialize (H count).
  rewrite forallb_forall in H. apply H; apply in_seq; lia.
Qed.

Lemma agreeUpTo_200 : agreeUpTo 200 = true.
Proof. vm_compute. reflexivity. Qed.

Lemma positive_200 :
  forallb (fun count => (0 <? ofNat count)%float) (seq 1 200) = true.
Proof. vm_compute. reflexivity. Qed.

Lemma agrees_cases correct count :
  agrees correct count = true ->
  let e := roundedPercentage correct count in
  (tie correct count = false -> percent correct count = ofZ e)
  /\ (percent correct count = ofZ e \/ percent correct count = ofZ (e - 1)).
Proof.
  intros H e. unfold agrees in H. fold e in H.
  apply orb_true_iff in H. destruct H as [H | H].
  - apply Leibniz.eqb_spec in H. auto.
  - apply andb_true_iff in H. destruct H as [T H].
    apply Leibniz.eqb_spec in H. split; [congruence | auto].
Qed.

Lemma hits_le_defined {A} (checkFn : A -> option bool) matches :
  (hits checkFn matches <= defined checkFn matches)%nat.
Proof.
  unfold hits, defined. induction matches as [|m l IH]; cbn; [lia|].
  destruct (checkFn m) as [[|]|]; cbn; lia.
Qed.

(** X26: with at most 200 defined evaluations, of which at least one,
    [calcAccuracy] is the exact rounding of 100 * hits / defined, a half
    going up, unless that quotient lies half way between two integers;
    there it is the exact rounding or one below it. *)
Theorem calcAccuracy_rounding {A} (matches : list A) (checkFn : A -> option bool) :
  (1 <= defined checkFn matches <= 200)%nat ->
  let correct := hits checkFn matches in
  let count := defined checkFn matches in
  let e := roundedPercentage correct count in
  (tie correct count = false -> calcAccuracy matches checkFn = ofZ e)
  /\ (calcAccuracy matches checkFn = ofZ e
      \/ calcAccuracy matches checkFn = ofZ (e - 1)).
Proof.
  intros B correct count e.
  rewrite AggregatorFacts.calcAccuracy_counts.
  replace (0 <? defined checkFn matches)%nat with true
    by (symmetry; apply Nat.ltb_lt; lia).
  apply (agrees_cases correct count).
  apply (agreeUpTo_sound 200); [exact agreeUpTo_200 | apply hits_le_defined | exact B].
Qed.

Lemma calcAccuracy_rounding_witness :
  calcAccuracy [Samples.won; Samples.lost; Samples.pending; Samples.won; Samples.won]
               checkIsForecastCorrect = 75%float.
Proof.
  apply (calcAccuracy_rounding
           [Samples.won; Samples.lost; Samples.pending; Samples.won; Samples.won]
           checkIsForecastCorrect); [vm_compute; lia | reflexivity].
Defined.

(** X27: [ChartsManager.calculateAccuracy] on two counters, the total
    between 1 and 200: the exact rounding of 100 * correct / total, or
    one below it when that quotient lies half way between two integers;
    a total of 0 gives 0. *)
Theorem calculateAccuracy_rounding (correct total : nat) :
  (correct <= total <= 200)%nat ->
  let e := roundedPercentage correct total in
  (tie correct total = false ->
   ChartsManager.calculateAccuracy (ofNat correct) (ofNat total) = ofZ e)
  /\ (ChartsManager.calculateAccuracy (ofNat correct) (ofNat total) = ofZ e
      \/ (total <> 0%nat
          /\ ChartsManager.calculateAccuracy (ofNat correct) (ofNat total) = ofZ (e - 1))).
Proof.
  intros B e. destruct total as [|t].
  - replace correct with 0%nat by lia. split; [reflexivity | left; reflexivity].
  - unfold ChartsManager.calculateAccuracy.
    pose proof positive_200 as P. rewrite forallb_forall in P.
    rewrite (P (S t)) by (apply in_seq; lia).
    destruct (agrees_cases correct (S t)) as [H1 H2].
    + apply (agreeUpTo_sound 200); [exact agreeUpTo_200 | lia | lia].
    + split; [exact H1|]. destruct H2 as [H2|H2]; [left | right; split];
        trivial; discriminate.
Qed.

Lemma calculateAccuracy_rounding_witness :
  ChartsManager.calculateAccuracy 3 4 = 75%float.
Proof.
  apply (calculateAccuracy_rounding 3 4); [lia | reflexivity].
Defined.

End RoundingFacts.
